(** * steampipe-plugin-gitlab: connection, list handlers, qualifier
      translation and column transforms

    A shallow embedding of [gitlab/utils.go], of the project table and of
    the issue table.  Go strings are [string], Go [int] and [int64] are [Z]
    (the plugin runs on 64-bit platforms, where [int(x)] of an [int64] is the
    identity).  A pointer the code compares with [nil] is an [option]; a
    pointer it dereferences without a test is modelled by the value it
    points to, except for the elements of an assignee slice: they are
    [option]s, and reading a field through a [nil] one is a panic.  The
    qualifier map [map[string]*proto.QualValue] is a
    [gmap string QualValue]: the code only ever reads [q[key]], where a
    missing key and a [nil] entry are the same [nil].  A handler's effects
    (the upstream calls it issues and the rows it hands to [StreamListItem])
    are collected in a [run]; the page loops have no bound in the source and
    take fuel here. *)

From Stdlib Require Import ZArith String Ascii List Lia.
From stdpp Require Import base option list gmap strings pretty.

Local Open Scope Z_scope.

(** ** Values shared by the three source files *)

(** A Go [error].  [Errorf] is an error built by this package with
    [fmt.Errorf]; [LibError] is one handed back by the GitLab client library
    (client construction or an upstream call). *)
Inductive error :=
| Errorf (msg : string)
| LibError (msg : string).

(** [proto.QualValue]: the oneof of the plugin SDK.  The getters return the
    zero value of their type when the oneof holds another case. *)
Inductive QualValue :=
| StringValue (s : string)
| Int64Value (i : Z)
| BoolValue (b : bool)
| OtherValue.

Definition GetStringValue (v : QualValue) : string :=
  match v with StringValue s => s | _ => EmptyString end.

Definition GetInt64Value (v : QualValue) : Z :=
  match v with Int64Value i => i | _ => 0 end.

Definition GetBoolValue (v : QualValue) : bool :=
  match v with BoolValue b => b | _ => false end.

(** Modelled from the spec: the connection config structure and [GetConfig],
    which the package declares next to its connection config schema.  The
    structure has "optional overrides for the same two fields", base address
    and token; [GetConfig] yields the structure of the connection, or one
    with both fields unset when the connection carries none. *)
Record gitlabConfig := {
  BaseUrl : option string;
  Token : option string
}.

Record Connection := { Config : option gitlabConfig }.

Definition GetConfig (c : Connection) : gitlabConfig :=
  match Config c with
  | Some g => g
  | None => {| BaseUrl := None; Token := None |}
  end.

(** [plugin.QueryData], the fields the handlers read. *)
Record QueryData := {
  QConnection : Connection;
  OptionalKeyColumnQuals : gmap string QualValue
}.

(** The process environment; [os.Getenv] of an unset variable is the empty
    string. *)
Definition Getenv (env : gmap string string) (key : string) : string :=
  default EmptyString (env !! key).

(** The client the library constructs: it remembers the token and the base
    address it was given. *)
Record Client := {
  client_token : string;
  client_baseURL : string
}.

(** [const GitlabCloudApiUrl], declared with the issue table. *)
Definition GitlabCloudApiUrl : string := "https://gitlab.com/api/v4".

(** ** Go's [time] package, as far as the layout ["2006-01-02"] needs it *)

Module GoTime.

(** A [time.Time] in UTC, by its calendar and clock fields. *)
Record Time := {
  year : Z; month : Z; day : Z;
  hour : Z; minute : Z; second : Z; nanosecond : Z
}.

(** [time.Date(y, m, d, 0, 0, 0, 0, time.UTC)] *)
Definition midnightUTC (y m d : Z) : Time :=
  {| year := y; month := m; day := d;
     hour := 0; minute := 0; second := 0; nanosecond := 0 |}.

Definition digit (n : Z) : ascii :=
  match n with
  | 0 => "0" | 1 => "1" | 2 => "2" | 3 => "3" | 4 => "4"
  | 5 => "5" | 6 => "6" | 7 => "7" | 8 => "8" | _ => "9"
  end%char.

Definition digitVal (c : ascii) : option Z :=
  let n := Z.of_N (N_of_ascii c) in
  if (48 <=? n) && (n <=? 57) then Some (n - 48) else None.

(** [appendInt(b, x, width)]: the decimal form of [x], zero-padded to
    [width], with the two fast paths of the library for 2 and 4 digits. *)
Definition appendInt (x : Z) (width : nat) : string :=
  let u := Z.abs x in
  let sign := if x <? 0 then "-" else EmptyString in
  let body :=
    if (Nat.eqb width 2 && (u <? 100))%bool then
      String (digit (u / 10)) (String (digit (u mod 10)) EmptyString)
    else if (Nat.eqb width 4 && (u <? 10000))%bool then
      String (digit (u / 1000)) (String (digit (u / 100 mod 10))
        (String (digit (u / 10 mod 10)) (String (digit (u mod 10)) EmptyString)))
    else
      let ds := pretty (Z.to_N u) in
      String.append
        (string_of_list_ascii (repeat "0"%char (width - String.length ds)%nat)) ds
  in String.append sign body.

(** [t.Format("2006-01-02")] *)
Definition Format_iso8601 (t : Time) : string :=
  String.append (appendInt (year t) 4)
    (String "-" (String.append (appendInt (month t) 2)
      (String "-" (appendInt (day t) 2)))).

Definition isLeap (y : Z) : bool :=
  (y mod 4 =? 0) && (negb (y mod 100 =? 0) || (y mod 400 =? 0)).

Definition daysIn (m y : Z) : Z :=
  match m with
  | 2 => if isLeap y then 29 else 28
  | 4 | 6 | 9 | 11 => 30
  | _ => 31
  end.

(** A date of the calendar with a four-digit year: what the layout
    ["2006-01-02"] can write and read back. *)
Definition validDate (y m d : Z) : Prop :=
  0 <= y <= 9999 /\ 1 <= m <= 12 /\ 1 <= d <= daysIn m y.

(** [time.Parse("2006-01-02", value)]: four year digits, two month digits
    and two day digits between dashes, nothing after them, a month of the
    calendar and a day of that month; the result is in UTC at midnight.
    [None] stands for the library's [*time.ParseError]. *)
Definition Parse_iso8601 (value : string) : option Time :=
  match value with
  | String y1 (String y2 (String y3 (String y4 (String s1
      (String m1 (String m2 (String s2
        (String d1 (String d2 EmptyString))))))))) =>
      a ← digitVal y1; b ← digitVal y2; c ← digitVal y3; e ← digitVal y4;
      p ← digitVal m1; q ← digitVal m2;
      u ← digitVal d1; v ← digitVal d2;
      let y := 1000 * a + 100 * b + 10 * c + e in
      let m := 10 * p + q in
      let d := 10 * u + v in
      if Ascii.eqb s1 "-" && Ascii.eqb s2 "-"
         && (1 <=? m) && (m <=? 12) && (1 <=? d) && (d <=? daysIn m y)
      then Some (midnightUTC y m d) else None
  | _ => None
  end.

End GoTime.

(** [api.ISOTime] is declared as [type ISOTime time.Time]; its [String]
    method formats the value with the layout ["2006-01-02"]. *)
Definition ISOTime : Type := GoTime.Time.

Definition ISOTime_String (t : ISOTime) : string := GoTime.Format_iso8601 t.

(** ** The client library (go-gitlab), as the plugin uses it *)

(** The request options.  [api.ListOptions] is embedded in each options
    struct, so [Page] and [PerPage] are fields of the struct itself
    ([opt.Page]); fields this package never writes are left out.  The zero
    value of a struct is [empty]. *)
Module ListProjectsOptions.
Record t := mk { Page : Z; PerPage : Z }.
Definition empty : t := mk 0 0.
Definition set_Page (p : Z) (o : t) : t := mk p (PerPage o).
End ListProjectsOptions.

Module ListIssuesOptions.
Record t := mk {
  Page : Z; PerPage : Z;
  Scope : option string;
  AssigneeUsername : option string;
  AssigneeID : option Z;
  AuthorID : option Z;
  Confidential : option bool;
  Search : option string
}.
Definition empty : t := mk 0 0 None None None None None None.
Definition set_Page (p : Z) (o : t) : t :=
  mk p (PerPage o) (Scope o) (AssigneeUsername o) (AssigneeID o) (AuthorID o)
     (Confidential o) (Search o).
Definition set_AssigneeUsername (v : option string) (o : t) : t :=
  mk (Page o) (PerPage o) (Scope o) v (AssigneeID o) (AuthorID o)
     (Confidential o) (Search o).
Definition set_AssigneeID (v : option Z) (o : t) : t :=
  mk (Page o) (PerPage o) (Scope o) (AssigneeUsername o) v (AuthorID o)
     (Confidential o) (Search o).
Definition set_AuthorID (v : option Z) (o : t) : t :=
  mk (Page o) (PerPage o) (Scope o) (AssigneeUsername o) (AssigneeID o) v
     (Confidential o) (Search o).
Definition set_Confidential (v : option bool) (o : t) : t :=
  mk (Page o) (PerPage o) (Scope o) (AssigneeUsername o) (AssigneeID o)
     (AuthorID o) v (Search o).
Definition set_Search (v : option string) (o : t) : t :=
  mk (Page o) (PerPage o) (Scope o) (AssigneeUsername o) (AssigneeID o)
     (AuthorID o) (Confidential o) v.
End ListIssuesOptions.

Module ListProjectIssuesOptions.
Record t := mk {
  Page : Z; PerPage : Z;
  Scope : option string;
  AssigneeUsername : option string;
  AssigneeID : option Z;
  AuthorID : option Z;
  Confidential : option bool;
  Search : option string
}.
Definition empty : t := mk 0 0 None None None None None None.
Definition set_Page (p : Z) (o : t) : t :=
  mk p (PerPage o) (Scope o) (AssigneeUsername o) (AssigneeID o) (AuthorID o)
     (Confidential o) (Search o).
Definition set_AssigneeUsername (v : option string) (o : t) : t :=
  mk (Page o) (PerPage o) (Scope o) v (AssigneeID o) (AuthorID o)
     (Confidential o) (Search o).
Definition set_AssigneeID (v : option Z) (o : t) : t :=
  mk (Page o) (PerPage o) (Scope o) (AssigneeUsername o) v (AuthorID o)
     (Confidential o) (Search o).
Definition set_AuthorID (v : option Z) (o : t) : t :=
  mk (Page o) (PerPage o) (Scope o) (AssigneeUsername o) (AssigneeID o) v
     (Confidential o) (Search o).
Definition set_Confidential (v : option bool) (o : t) : t :=
  mk (Page o) (PerPage o) (Scope o) (AssigneeUsername o) (AssigneeID o)
     (AuthorID o) v (Search o).
Definition set_Search (v : option string) (o : t) : t :=
  mk (Page o) (PerPage o) (Scope o) (AssigneeUsername o) (AssigneeID o)
     (AuthorID o) (Confidential o) v.
End ListProjectIssuesOptions.

(** [api.Response], the field the handlers read. *)
Record Response := { NextPage : Z }.

(** What a list call of the library returns: [(items, resp, nil)] or an
    error. *)
Definition reply (A : Type) : Type := (list A * Response) + error.

(** The library calls of the plugin.  [NewClient token baseUrl] is
    [api.NewClient(token, api.WithBaseURL(baseUrl))]: it builds the client in
    memory or refuses the base address.  The three list calls are
    [conn.Projects.ListProjects], [conn.Issues.ListIssues] and
    [conn.Issues.ListProjectIssues]; each is one HTTP GET, a function of the
    client and of the request. *)
Class GitlabAPI (Project Issue : Type) := {
  NewClient : string -> string -> Client + error;
  ListProjects : Client -> ListProjectsOptions.t -> reply Project;
  ListIssues : Client -> ListIssuesOptions.t -> reply Issue;
  ListProjectIssues : Client -> Z -> ListProjectIssuesOptions.t -> reply Issue
}.

(** [api.IssueAssignee] *)
Record IssueAssignee := {
  ID : Z;
  State : string;
  WebURL : string;
  Name : string;
  AvatarURL : string;
  Username : string
}.

(** A Go slice value: [None] is the [nil] slice, [Some l] an allocated one
    (possibly of length 0). *)
Definition slice (A : Type) : Type := option (list A).

Definition slice_elems {A} (s : slice A) : list A := default [] s.

(** The builtin [append(s, x)]: the result is never [nil]. *)
Definition append {A} (s : slice A) (x : A) : slice A :=
  Some (slice_elems s ++ [x]).

(** How a call ends that reads through pointers it has not tested: it
    returns its pair of results, a value or an error, or it panics. *)
Inductive ended (A : Type) : Type :=
| Returns (r : A + error)
| Panics (msg : string).

Arguments Returns {A} r.
Arguments Panics {A} msg.

(** The run-time error of a field read through a [nil] pointer. *)
Definition nilDereference : string :=
  "runtime error: invalid memory address or nil pointer dereference".

(** ** The effects of a handler *)

Section Effects.

Context {Project Issue : Type}.

(** An upstream call, with the options it was sent. *)
Inductive request :=
| ListProjectsReq (opt : ListProjectsOptions.t)
| ListIssuesReq (opt : ListIssuesOptions.t)
| ListProjectIssuesReq (pid : Z) (opt : ListProjectIssuesOptions.t).

(** A row handed to [d.StreamListItem]. *)
Inductive row :=
| ProjectRow (p : Project)
| IssueRow (i : Issue).

(** How a handler ends: [return nil, nil], [return nil, err], or the fuel
    of the model ran out while the loop was still going. *)
Inductive outcome :=
| Done
| Failed (err : error)
| OutOfFuel.

(** A handler run: how it ended, the upstream calls in the order they were
    issued and the rows in the order they were streamed. *)
Record run := {
  result : outcome;
  calls : list request;
  streamed : list row
}.

Definition halt (o : outcome) : run :=
  {| result := o; calls := []; streamed := [] |}.

(** Issue the call [r], then go on as [k]. *)
Definition call (r : request) (k : run) : run :=
  {| result := result k; calls := r :: calls k; streamed := streamed k |}.

(** [d.StreamListItem(ctx, x)], then go on as [k]. *)
Definition StreamListItem (x : row) (k : run) : run :=
  {| result := result k; calls := calls k; streamed := x :: streamed k |}.

(** [for _, x := range items { d.StreamListItem(ctx, x) }], then [k]. *)
Definition streamAll {A} (mk : A -> row) (items : list A) (k : run) : run :=
  foldr (fun x k' => StreamListItem (mk x) k') k items.

(** The pages an endpoint serves when followed from page [p]: [fetch p]
    answers with the items of the page and a next-page indicator, and the
    chain ends at the page whose indicator is 0. *)
Inductive pageChain {A} (fetch : Z -> reply A) : Z -> list (Z * list A) -> Prop :=
| chain_last p items :
    fetch p = inl (items, {| NextPage := 0 |}) ->
    pageChain fetch p [(p, items)]
| chain_next p items next rest :
    fetch p = inl (items, {| NextPage := next |}) ->
    next <> 0 ->
    pageChain fetch next rest ->
    pageChain fetch p ((p, items) :: rest).

(** The run of a loop over a chain of pages: one call per page, every item
    of every page streamed in order, then [return nil, nil]. *)
Definition pagedRun {A} (req : Z -> request) (mk : A -> row)
    (ps : list (Z * list A)) : run :=
  {| result := Done;
     calls := map (fun pg => req (fst pg)) ps;
     streamed := concat (map (fun pg => map mk (snd pg)) ps) |}.

End Effects.

Arguments row : clear implicits.
Arguments run : clear implicits.

(** The pages served from page [p] up to the request for page [q]: each of
    them came with a next-page indicator other than 0, the last one's being
    [q]. *)
Inductive pagePrefix {A} (fetch : Z -> reply A)
  : Z -> list (Z * list A) -> Z -> Prop :=
| prefix_none p : pagePrefix fetch p [] p
| prefix_page p items next rest q :
    fetch p = inl (items, {| NextPage := next |}) ->
    next <> 0 ->
    pagePrefix fetch next rest q ->
    pagePrefix fetch p ((p, items) :: rest) q.

(** The getters of [proto.QualValue] are methods on the pointer and accept a
    [nil] receiver, for which they return the zero value: [q[key].GetX()] is
    defined on a missing key too. *)
Definition ptr_GetStringValue (p : option QualValue) : string :=
  from_option GetStringValue EmptyString p.

Definition ptr_GetInt64Value (p : option QualValue) : Z :=
  from_option GetInt64Value 0 p.

(** ** Go's [strings] package, as far as [sanitizeUrl] needs it *)

Module GoStrings.

(** [strings.HasPrefix(s, prefix)] *)
Fixpoint HasPrefix (s prefix : string) {struct prefix} : bool :=
  match prefix, s with
  | EmptyString, _ => true
  | String a prefix', String b s' => Ascii.eqb a b && HasPrefix s' prefix'
  | String _ _, EmptyString => false
  end.

(** [strings.Contains(s, substr)] *)
Fixpoint Contains (s substr : string) : bool :=
  HasPrefix s substr
  || match s with
     | EmptyString => false
     | String _ s' => Contains s' substr
     end.

(** The scan of [strings.Replace] for a non-empty [old]: matches are taken
    from left to right and do not overlap.  [skip] counts the bytes of the
    current match that are still to be passed over. *)
Fixpoint replaceFrom (old new : string) (skip : nat) (s : string) : string :=
  match s with
  | EmptyString => EmptyString
  | String c rest =>
      match skip with
      | S skip' => replaceFrom old new skip' rest
      | O =>
          if HasPrefix s old
          then String.append new
                 (replaceFrom old new (String.length old - 1) rest)
          else String c (replaceFrom old new O rest)
      end
  end.

(** [strings.ReplaceAll(s, old, new)], for a non-empty [old]. *)
Definition ReplaceAll (s old new : string) : string := replaceFrom old new O s.

End GoStrings.

(** ** utils.go *)

Module Utils.

Definition err_no_addr : string :=
  "GitLab Base Address must be set either in GITLAB_ADDR env var or in connection config file".

Definition err_no_token : string :=
  "GitLab Private/Personal Access Token must be set either in GITLAB_TOKEN env var or in connection config file".

(** Lines 17 and 20-24 of [connect]: the environment value of the base
    address, overridden by the connection config when the field is set.
    ([&gitlabConfig != nil] tests the address of a local variable and always
    holds.) *)
Definition mergedBaseUrl (env : gmap string string) (d : QueryData) : string :=
  let baseUrl := Getenv env "GITLAB_ADDR" in
  let gitlabConfig := GetConfig (QConnection d) in
  match BaseUrl gitlabConfig with
  | Some b => b
  | None => baseUrl
  end.

(** Lines 18 and 25-27 of [connect], the same for the token. *)
Definition mergedToken (env : gmap string string) (d : QueryData) : string :=
  let token := Getenv env "GITLAB_TOKEN" in
  let gitlabConfig := GetConfig (QConnection d) in
  match Token gitlabConfig with
  | Some t => t
  | None => token
  end.

(** [connect] *)
Definition connect {Project Issue} {api : GitlabAPI Project Issue}
    (env : gmap string string) (d : QueryData) : Client + error :=
  let baseUrl := mergedBaseUrl env d in
  let token := mergedToken env d in
  if decide (baseUrl = EmptyString) then inr (Errorf err_no_addr)
  else if decide (token = EmptyString) then inr (Errorf err_no_token)
  else
    match NewClient token baseUrl with
    | inr err => inr err
    | inl client => inl client
    end.

(** [isoTimeTransform].  The input is [input.Value]: [None] is the [nil]
    value, [Some t] a [*api.ISOTime] pointing at [t]. *)
Definition isoTimeTransform (input : option ISOTime) : option GoTime.Time + error :=
  match input with
  | None => inl None
  | Some t =>
      let x := ISOTime_String t in
      match GoTime.Parse_iso8601 x with
      | Some tm => inl (Some tm)
      | None => inr (LibError "parsing time: cannot parse value as 2006-01-02")
      end
  end.

(** [parseAccessLevel] *)
Definition parseAccessLevel (input : Z) : string :=
  match input with
  | 0 => "No Permissions"
  | 5 => "Minimal Access"
  | 10 => "Guest"
  | 20 => "Reporter"
  | 30 => "Developer"
  | 40 => "Maintainer"
  | 50 => "Owner"
  | _ => "No Permissions"
  end.

(** [isGitlabCloud] *)
Definition isGitlabCloud (d : QueryData) : bool :=
  let gitlabConfig := GetConfig (QConnection d) in
  match BaseUrl gitlabConfig with
  | Some b => if decide (b = GitlabCloudApiUrl) then true else false
  | None => false
  end.

(** [sanitizeUrl] *)
Definition sanitizeUrl (url : string) : string :=
  GoStrings.ReplaceAll url "//" "/".

End Utils.

(** ** The project table *)

Module ProjectTable.
Import Utils.

Section Handlers.

Context {Project Issue : Type} {api : GitlabAPI Project Issue}.

(** The [for] loop of [listProjects]. *)
Fixpoint listProjects_loop (fuel : nat) (conn : Client)
    (opt : ListProjectsOptions.t) : run Project Issue :=
  match fuel with
  | O => halt OutOfFuel
  | S fuel' =>
      call (ListProjectsReq opt)
        match ListProjects conn opt with
        | inr err => halt (Failed err)
        | inl (projects, resp) =>
            streamAll ProjectRow projects
              (if NextPage resp =? 0 then halt Done
               else listProjects_loop fuel' conn
                      (ListProjectsOptions.set_Page (NextPage resp) opt))
        end
  end.

(** [listProjects] *)
Definition listProjects (fuel : nat) (env : gmap string string)
    (d : QueryData) : run Project Issue :=
  match connect env d with
  | inr err => halt (Failed err)
  | inl conn =>
      let opt := ListProjectsOptions.mk 1 50 in
      listProjects_loop fuel conn opt
  end.

End Handlers.

(** [api.GetProjectOptions] *)
Record GetProjectOptions := {
  License : option bool;
  Statistics : option bool;
  WithCustomAttributes : option bool
}.

(** [conn.Projects.GetProject(id, opt)] of the client library: the project or
    an error. *)
Class ProjectsGet (Project : Type) := {
  GetProject : Client -> Z -> GetProjectOptions -> Project + error
}.

(** [plugin.QueryData] as a get handler reads it: the fields of [QueryData]
    and [KeyColumnQuals]. *)
Record GetQueryData := {
  GetQuery : QueryData;
  KeyColumnQuals : gmap string QualValue
}.

(** What [getProject] does: the [GetProject] calls it issued, with their id
    and options, and the pair it returns, a project or an error. *)
Record getRun (Project : Type) := {
  get_calls : list (Z * GetProjectOptions);
  get_result : Project + error
}.

Arguments get_calls {Project} _.
Arguments get_result {Project} _.

(** [getProject] *)
Definition getProject {Project Issue} {api : GitlabAPI Project Issue}
    {projects : ProjectsGet Project}
    (env : gmap string string) (d : GetQueryData) : getRun Project :=
  match connect env (GetQuery d) with
  | inr err => {| get_calls := []; get_result := inr err |}
  | inl conn =>
      let q := KeyColumnQuals d in
      let id := ptr_GetInt64Value (q !! "id") in
      let opt :=
        {| License := None; Statistics := None; WithCustomAttributes := None |} in
      {| get_calls := [(id, opt)];
         get_result :=
           match GetProject conn id opt with
           | inr err => inr err
           | inl project => inl project
           end |}
  end.

End ProjectTable.

(** ** The issue table *)

Module IssueTable.
Import Utils.

Definition err_cloud_quals : string :=
  String.append
    "When using this table with gitlab cloud, 'List' call requires an '=' qual for "
    "one ore more of the following columns:  assignee, assignee_id, author_id, project_id".

(** [addOptionalIssueQuals].  The calls to the debug logger are left out;
    they touch neither the options nor the upstream. *)
Definition addOptionalIssueQuals (opts : ListIssuesOptions.t)
    (q : gmap string QualValue) : ListIssuesOptions.t :=
  let opts :=
    match q !! "assignee" with
    | Some v => ListIssuesOptions.set_AssigneeUsername (Some (GetStringValue v)) opts
    | None => opts
    end in
  let opts :=
    match q !! "assignee_id" with
    | Some v => ListIssuesOptions.set_AssigneeID (Some (GetInt64Value v)) opts
    | None => opts
    end in
  let opts :=
    match q !! "author_id" with
    | Some v => ListIssuesOptions.set_AuthorID (Some (GetInt64Value v)) opts
    | None => opts
    end in
  let opts :=
    match q !! "confidential" with
    | Some v => ListIssuesOptions.set_Confidential (Some (GetBoolValue v)) opts
    | None => opts
    end in
  let opts :=
    match q !! "search_string" with
    | Some v => ListIssuesOptions.set_Search (Some (GetStringValue v)) opts
    | None => opts
    end in
  opts.

(** [addOptionalProjectIssueQuals] *)
Definition addOptionalProjectIssueQuals (opts : ListProjectIssuesOptions.t)
    (q : gmap string QualValue) : ListProjectIssuesOptions.t :=
  let opts :=
    match q !! "assignee" with
    | Some v => ListProjectIssuesOptions.set_AssigneeUsername (Some (GetStringValue v)) opts
    | None => opts
    end in
  let opts :=
    match q !! "assignee_id" with
    | Some v => ListProjectIssuesOptions.set_AssigneeID (Some (GetInt64Value v)) opts
    | None => opts
    end in
  let opts :=
    match q !! "author_id" with
    | Some v => ListProjectIssuesOptions.set_AuthorID (Some (GetInt64Value v)) opts
    | None => opts
    end in
  let opts :=
    match q !! "confidential" with
    | Some v => ListProjectIssuesOptions.set_Confidential (Some (GetBoolValue v)) opts
    | None => opts
    end in
  let opts :=
    match q !! "search_string" with
    | Some v => ListProjectIssuesOptions.set_Search (Some (GetStringValue v)) opts
    | None => opts
    end in
  opts.

(** The [for] loop of [parseAssignees] over the elements still to visit.
    An element is a [*api.IssueAssignee], [None] when it is [nil]; the loop
    reads [assignee.Username] without a test, so it stops in a panic, here
    [None], at the first [nil] element. *)
Fixpoint parseAssignees_loop (assignees : list (option IssueAssignee))
    (output : slice string) : option (slice string) :=
  match assignees with
  | [] => Some output
  | None :: _ => None
  | Some assignee :: rest =>
      parseAssignees_loop rest (append output (Username assignee))
  end.

(** [parseAssignees].  The input is [input.Value]: [None] is the [nil]
    value, [Some s] a slice [[]*api.IssueAssignee].  The output is the
    returned [interface{}]: [None] is [nil], [Some output] the [[]string]
    built by the loop, which starts as the [nil] slice. *)
Definition parseAssignees (input : option (slice (option IssueAssignee)))
    : ended (option (slice string)) :=
  match input with
  | None => Returns (inl None)
  | Some assignees =>
      let output : slice string := None in
      match parseAssignees_loop (slice_elems assignees) output with
      | None => Panics nilDereference
      | Some output => Returns (inl (Some output))
      end
  end.

(** The options object [listAllIssues] builds (lines 199-207). *)
Definition allIssuesOptions (q : gmap string QualValue) : ListIssuesOptions.t :=
  let defaultScope : string := "all" in
  let opt :=
    ListIssuesOptions.mk 1 50 (Some defaultScope) None None None None None in
  addOptionalIssueQuals opt q.

(** The options object [listProjectIssues] builds (lines 234-243). *)
Definition projectIssuesOptions (q : gmap string QualValue)
    : ListProjectIssuesOptions.t :=
  let defaultScope : string := "all" in
  let opt :=
    ListProjectIssuesOptions.mk 1 50 (Some defaultScope) None None None None None in
  addOptionalProjectIssueQuals opt q.

Section Handlers.

Context {Project Issue : Type} {api : GitlabAPI Project Issue}.

(** The [for] loop of [listAllIssues]. *)
Fixpoint listAllIssues_loop (fuel : nat) (conn : Client)
    (opt : ListIssuesOptions.t) : run Project Issue :=
  match fuel with
  | O => halt OutOfFuel
  | S fuel' =>
      call (ListIssuesReq opt)
        match ListIssues conn opt with
        | inr err => halt (Failed err)
        | inl (issues, resp) =>
            streamAll IssueRow issues
              (if NextPage resp =? 0 then halt Done
               else listAllIssues_loop fuel' conn
                      (ListIssuesOptions.set_Page (NextPage resp) opt))
        end
  end.

(** [listAllIssues] *)
Definition listAllIssues (fuel : nat) (env : gmap string string)
    (d : QueryData) : run Project Issue :=
  let q := OptionalKeyColumnQuals d in
  match connect env d with
  | inr err => halt (Failed err)
  | inl conn =>
      let opt := allIssuesOptions q in
      listAllIssues_loop fuel conn opt
  end.

(** The [for] loop of [listProjectIssues]: [opt] is the options object the
    handler built, whose page the loop advances; the call is sent
    [&api.ListProjectIssuesOptions{}]. *)
Fixpoint listProjectIssues_loop (fuel : nat) (conn : Client) (project_id : Z)
    (opt : ListProjectIssuesOptions.t) : run Project Issue :=
  match fuel with
  | O => halt OutOfFuel
  | S fuel' =>
      call (ListProjectIssuesReq project_id ListProjectIssuesOptions.empty)
        match ListProjectIssues conn project_id ListProjectIssuesOptions.empty with
        | inr err => halt (Failed err)
        | inl (issues, resp) =>
            streamAll IssueRow issues
              (if NextPage resp =? 0 then halt Done
               else listProjectIssues_loop fuel' conn project_id
                      (ListProjectIssuesOptions.set_Page (NextPage resp) opt))
        end
  end.

(** [listProjectIssues] *)
Definition listProjectIssues (fuel : nat) (env : gmap string string)
    (d : QueryData) : run Project Issue :=
  match connect env d with
  | inr err => halt (Failed err)
  | inl conn =>
      let q := OptionalKeyColumnQuals d in
      let opt := projectIssuesOptions q in
      match q !! "project_id" with
      | None => halt Done
      | Some v =>
          let project_id := GetInt64Value v in
          listProjectIssues_loop fuel conn project_id opt
      end
  end.

(** The guard of [listIssues] (lines 174-178). *)
Definition cloudGuard (d : QueryData) : bool :=
  let q := OptionalKeyColumnQuals d in
  bool_decide (q !! "assignee" = None)
  && bool_decide (q !! "assignee_id" = None)
  && bool_decide (q !! "author_id" = None)
  && bool_decide (q !! "project_id" = None)
  && isGitlabCloud d.

(** [listIssues] *)
Definition listIssues (fuel : nat) (env : gmap string string)
    (d : QueryData) : run Project Issue :=
  let q := OptionalKeyColumnQuals d in
  if cloudGuard d then halt (Failed (Errorf err_cloud_quals))
  else
    match q !! "project_id" with
    | Some _ => listProjectIssues fuel env d
    | None => listAllIssues fuel env d
    end.

End Handlers.

(** [OptionalKeyColumns] of [tableIssue]: the columns whose [=] qualifiers
    the host passes to [listIssues]. *)
Definition OptionalKeyColumns : list string :=
  ["assignee"; "assignee_id"; "author"; "author_id"; "confidential";
   "search_string"; "project_id"]%string.

(** [searchStringFromQuals], the hydrate function of the [search_string]
    column; it returns the string and a [nil] error. *)
Definition searchStringFromQuals (d : QueryData) : string + error :=
  let quals := OptionalKeyColumnQuals d in
  let q := ptr_GetStringValue (quals !! "search_string") in
  inl q.

End IssueTable.

(** ** Concrete libraries and inputs, for the examples below *)

Module Fixtures.

(** [stringContainsCTLByte] of [net/url]. *)
Definition hasCTLByte (s : string) : bool :=
  existsb (fun c => let n := N_of_ascii c in (n <? 32)%N || (n =? 127)%N)
          (list_ascii_of_string s).

(** Client construction as the library performs it on a base address:
    [WithBaseURL] parses the address with [url.Parse], whose first check
    refuses an address that holds an ASCII control character.  (The other
    refusals of [url.Parse] are not needed below and not modelled.) *)
Definition NewClient_url (token baseUrl : string) : Client + error :=
  if hasCTLByte baseUrl
  then inr (LibError "net/url: invalid control character in URL")
  else inl {| client_token := token; client_baseURL := baseUrl |}.

(** An endpoint with offset pagination over [pages]: a request that names
    no page ([Page] 0 is left out of the query string) gets the first one,
    and the next-page indicator of the last page is 0. *)
Definition servePages {A} (pages : list (list A)) (page : Z) : reply A :=
  let p := if page =? 0 then 1 else page in
  inl (nth (Z.to_nat (p - 1)) pages [],
       {| NextPage := if p <? Z.of_nat (length pages) then p + 1 else 0 |}).

(** A GitLab whose projects are strings and whose issues are numbers. *)
Definition pagedAPI (projects : list (list string)) (issues : list (list Z))
    : GitlabAPI string Z :=
  {| NewClient := NewClient_url;
     ListProjects := fun _ opt => servePages projects (ListProjectsOptions.Page opt);
     ListIssues := fun _ opt => servePages issues (ListIssuesOptions.Page opt);
     ListProjectIssues := fun _ _ opt =>
       servePages issues (ListProjectIssuesOptions.Page opt) |}.

(** Three pages, with next-page indicators 1→2, 2→3, 3→0. *)
Definition threePagesOfProjects : list (list string) :=
  [["a"; "b"]; ["c"]; ["d"; "e"]].

Definition threePagesOfIssues : list (list Z) := [[11; 12]; [13]; [14; 15]].

Definition api3 : GitlabAPI string Z :=
  pagedAPI threePagesOfProjects threePagesOfIssues.

Definition api1 : GitlabAPI string Z := pagedAPI [["a"]] [[11; 12]].

Definition noConfig : Connection := {| Config := None |}.

Definition withConfig (base token : option string) : Connection :=
  {| Config := Some {| BaseUrl := base; Token := token |} |}.

Definition envOf (addr token : string) : gmap string string :=
  <["GITLAB_ADDR" := addr]> (<["GITLAB_TOKEN" := token]> ∅).

Definition selfHosted : string := "https://gitlab.example.com/api/v4".

(** An address with a line feed at its end. *)
Definition addrWithNewline : string :=
  String.append "https://gitlab.example.com" (String "010"%char EmptyString).

Definition query (c : Connection) (q : gmap string QualValue) : QueryData :=
  {| QConnection := c; OptionalKeyColumnQuals := q |}.

(** Environments that set both variables, and queries without connection
    config. *)
Definition envSelfHosted : gmap string string := envOf selfHosted "glpat".

Definition envCloud : gmap string string := envOf GitlabCloudApiUrl "glpat".

Definition envNewline : gmap string string := envOf addrWithNewline "glpat".

Definition noQuals : QueryData := query noConfig ∅.

Definition project7 : QueryData :=
  query noConfig {["project_id" := Int64Value 7]}.

(** A query with the hosted endpoint in the connection config. *)
Definition cloudConfigNoQuals : QueryData :=
  query (withConfig (Some GitlabCloudApiUrl) None) ∅.

(** A GitLab whose project and issue lists have a first page [page1] with
    next-page indicator 2 and fail on every other page. *)
Definition brokenAfterFirstPage : GitlabAPI string Z :=
  let serve {A} (page1 : list A) (page : Z) : reply A :=
    if page =? 1 then inl (page1, {| NextPage := 2 |})
    else inr (LibError "502 Bad Gateway") in
  {| NewClient := NewClient_url;
     ListProjects := fun _ opt => serve ["a"; "b"]%string (ListProjectsOptions.Page opt);
     ListIssues := fun _ opt => serve [11; 12] (ListIssuesOptions.Page opt);
     ListProjectIssues := fun _ _ opt =>
       serve [11; 12] (ListProjectIssuesOptions.Page opt) |}.

(** A GitLab that refuses to list the issues of a project. *)
Definition forbiddenProjectIssues : GitlabAPI string Z :=
  {| NewClient := NewClient_url;
     ListProjects := fun _ opt => servePages [] (ListProjectsOptions.Page opt);
     ListIssues := fun _ opt => servePages [] (ListIssuesOptions.Page opt);
     ListProjectIssues := fun _ _ _ => inr (LibError "403 Forbidden") |}.

(** Project lookup by id: project 7 is "seven", the others are not found. *)
Definition projectSeven : ProjectTable.ProjectsGet string :=
  {| ProjectTable.GetProject := fun _ id _ =>
       if id =? 7 then inl "seven"%string
       else inr (LibError "404 Project Not Found") |}.

Definition connectedClient : Client :=
  {| client_token := "glpat"; client_baseURL := selfHosted |}.

(** An environment without token. *)
Definition envNoToken : gmap string string := {["GITLAB_ADDR" := selfHosted]}.

(** A query for the open issues assigned to "alice" that match "crash". *)
Definition aliceCrash : QueryData :=
  query noConfig
    (<["assignee" := StringValue "alice"]>
       (<["search_string" := StringValue "crash"]> ∅)).

(** Queries for the issues of project 7, with and without other
    qualifiers. *)
Definition project7Alice : QueryData :=
  query noConfig
    (<["project_id" := Int64Value 7]> (<["assignee" := StringValue "alice"]> ∅)).

(** A query with the hosted endpoint in the connection config and an
    [assignee_id] qualifier. *)
Definition cloudConfigAssignee : QueryData :=
  query (withConfig (Some GitlabCloudApiUrl) None) {["assignee_id" := Int64Value 3]}.

(** Two assignees. *)
Definition alice : IssueAssignee :=
  {| ID := 1; State := "active"; WebURL := "https://gitlab.example.com/alice";
     Name := "Alice"; AvatarURL := EmptyString; Username := "alice" |}.

Definition bob : IssueAssignee :=
  {| ID := 2; State := "active"; WebURL := "https://gitlab.example.com/bob";
     Name := "Bob"; AvatarURL := EmptyString; Username := "bob" |}.

(** A query whose connection config overrides the base address with the
    empty string. *)
Definition emptyOverride : QueryData :=
  query (withConfig (Some EmptyString) None) ∅.

End Fixtures.

(** * Properties *)

(** ** Connection resolution *)

Section ConnectProperties.

Import Utils.
Context {Project Issue : Type} {api : GitlabAPI Project Issue}.

Lemma mergedBaseUrl_config env d b :
  BaseUrl (GetConfig (QConnection d)) = Some b -> mergedBaseUrl env d = b.
Proof. unfold mergedBaseUrl. intros ->. reflexivity. Qed.

Lemma mergedBaseUrl_env env d :
  BaseUrl (GetConfig (QConnection d)) = None ->
  mergedBaseUrl env d = Getenv env "GITLAB_ADDR".
Proof. unfold mergedBaseUrl. intros ->. reflexivity. Qed.

Lemma mergedToken_config env d t :
  Token (GetConfig (QConnection d)) = Some t -> mergedToken env d = t.
Proof. unfold mergedToken. intros ->. reflexivity. Qed.

Lemma mergedToken_env env d :
  Token (GetConfig (QConnection d)) = None ->
  mergedToken env d = Getenv env "GITLAB_TOKEN".
Proof. unfold mergedToken. intros ->. reflexivity. Qed.

Lemma connect_no_addr env d :
  mergedBaseUrl env d = EmptyString -> connect env d = inr (Errorf err_no_addr).
Proof. intros Hb. unfold connect. rewrite Hb. reflexivity. Qed.

Lemma connect_no_token env d :
  mergedBaseUrl env d <> EmptyString -> mergedToken env d = EmptyString ->
  connect env d = inr (Errorf err_no_token).
Proof.
  intros Hb Ht. unfold connect. rewrite Ht.
  destruct (decide (mergedBaseUrl env d = EmptyString)) as [E | _]; [contradiction | reflexivity].
Qed.

Lemma connect_both_set env d :
  mergedBaseUrl env d <> EmptyString -> mergedToken env d <> EmptyString ->
  connect env d = NewClient (mergedToken env d) (mergedBaseUrl env d).
Proof.
  intros Hb Ht. unfold connect.
  destruct (decide (mergedBaseUrl env d = EmptyString)) as [E | _]; [contradiction |].
  destruct (decide (mergedToken env d = EmptyString)) as [E | _]; [contradiction |].
  destruct (NewClient _ _); reflexivity.
Qed.

(** C6, as amended.  Base address and token each take the connection-config
    value when present and the environment value otherwise.  An empty merged
    base address fails with the base-address message; otherwise an empty
    merged token fails with the (different) token message; with both
    non-empty the result of [connect] is the result of the library's client
    constructor on that token and address: its client, or its error.
    [connect] reaches no list endpoint: it yields a client or an error, never
    a [run]. *)
Theorem connect_resolution (env : gmap string string) (d : QueryData) :
  mergedBaseUrl env d
    = default (Getenv env "GITLAB_ADDR") (BaseUrl (GetConfig (QConnection d))) /\
  mergedToken env d
    = default (Getenv env "GITLAB_TOKEN") (Token (GetConfig (QConnection d))) /\
  (mergedBaseUrl env d = EmptyString ->
     connect env d = inr (Errorf err_no_addr)) /\
  (mergedBaseUrl env d <> EmptyString -> mergedToken env d = EmptyString ->
     connect env d = inr (Errorf err_no_token)) /\
  (mergedBaseUrl env d <> EmptyString -> mergedToken env d <> EmptyString ->
     connect env d = NewClient (mergedToken env d) (mergedBaseUrl env d)) /\
  err_no_addr <> err_no_token.
Proof.
  split_and!.
  - unfold mergedBaseUrl. destruct (BaseUrl _); reflexivity.
  - unfold mergedToken. destruct (Token _); reflexivity.
  - apply connect_no_addr.
  - apply connect_no_token.
  - apply connect_both_set.
  - discriminate.
Qed.

End ConnectProperties.

(** Resolution of a self-hosted address and a token, both taken from the
    environment. *)
Lemma connect_resolution_witness :
  Utils.connect (api := Fixtures.api1) Fixtures.envSelfHosted Fixtures.noQuals
  = inl {| client_token := "glpat"; client_baseURL := Fixtures.selfHosted |}.
Proof.
  destruct (connect_resolution (api := Fixtures.api1)
              Fixtures.envSelfHosted Fixtures.noQuals)
    as (_ & _ & _ & _ & Hboth & _).
  rewrite Hboth; [vm_compute; reflexivity | vm_compute; discriminate ..].
Defined.

(** C6, as stated, fails: a base address and a token that are both non-empty
    do not make [connect] succeed when the client constructor refuses the
    address, here one that ends in a line feed. *)
Lemma connect_nonempty_can_fail :
  Utils.mergedBaseUrl Fixtures.envNewline Fixtures.noQuals <> EmptyString /\
  Utils.mergedToken Fixtures.envNewline Fixtures.noQuals <> EmptyString /\
  Utils.connect (api := Fixtures.api1) Fixtures.envNewline Fixtures.noQuals
    = inr (LibError "net/url: invalid control character in URL") /\
  ~ (exists client : Client,
       Utils.connect (api := Fixtures.api1) Fixtures.envNewline Fixtures.noQuals
       = inl client).
Proof.
  split_and!; try (vm_compute; discriminate); [vm_compute; reflexivity |].
  intros [client Hclient]. vm_compute in Hclient. discriminate.
Qed.

(** ** The hosted-deployment predicate *)

Lemma isGitlabCloud_true_iff (d : QueryData) :
  Utils.isGitlabCloud d = true
  <-> BaseUrl (GetConfig (QConnection d)) = Some GitlabCloudApiUrl.
Proof.
  unfold Utils.isGitlabCloud.
  destruct (BaseUrl (GetConfig (QConnection d))) as [b |]; [| split; discriminate].
  destruct (decide (b = GitlabCloudApiUrl)) as [-> | Hne].
  - split; reflexivity.
  - split; [discriminate | intros [= E]; contradiction].
Qed.

(** With a base address in the connection config, the predicate does compare
    the address [connect] resolves. *)
Lemma isGitlabCloud_config (env : gmap string string) (d : QueryData) (b : string) :
  BaseUrl (GetConfig (QConnection d)) = Some b ->
  (Utils.isGitlabCloud d = true <-> Utils.mergedBaseUrl env d = GitlabCloudApiUrl).
Proof.
  intros Hb. rewrite isGitlabCloud_true_iff, (mergedBaseUrl_config env d b Hb), Hb.
  split; [intros [= ->]; reflexivity | intros ->; reflexivity].
Qed.

(** Without one, the predicate is false whatever the environment holds. *)
Lemma isGitlabCloud_no_config (d : QueryData) :
  BaseUrl (GetConfig (QConnection d)) = None -> Utils.isGitlabCloud d = false.
Proof. unfold Utils.isGitlabCloud. intros ->. reflexivity. Qed.

(** C2, at the input on which the code departs from it: the connection
    config sets no base address and [GITLAB_ADDR] holds the hosted endpoint.
    The address [connect] resolves is the hosted endpoint, and
    [isGitlabCloud] answers [false]. *)
Theorem isGitlabCloud_misses_environment :
  BaseUrl (GetConfig (QConnection Fixtures.noQuals)) = None /\
  Getenv Fixtures.envCloud "GITLAB_ADDR" = GitlabCloudApiUrl /\
  Utils.mergedBaseUrl Fixtures.envCloud Fixtures.noQuals = GitlabCloudApiUrl /\
  Utils.isGitlabCloud Fixtures.noQuals = false.
Proof. split_and!; vm_compute; reflexivity. Qed.

(** ** The access-level transform *)

(** C9.  [parseAccessLevel] maps 0, 5, 10, 20, 30, 40 and 50 to their labels
    and every other integer to "No Permissions"; its result is a string,
    there is no error to return. *)
Theorem parseAccessLevel_table (input : Z) :
  Utils.parseAccessLevel input =
    if decide (input = 0) then "No Permissions"
    else if decide (input = 5) then "Minimal Access"
    else if decide (input = 10) then "Guest"
    else if decide (input = 20) then "Reporter"
    else if decide (input = 30) then "Developer"
    else if decide (input = 40) then "Maintainer"
    else if decide (input = 50) then "Owner"
    else "No Permissions".
Proof.
  unfold Utils.parseAccessLevel.
  repeat (case_decide; [subst input; reflexivity |]).
  destruct input as [| p | p]; [congruence | | reflexivity].
  do 6 (try (destruct p as [p | p |]; try reflexivity)); congruence.
Qed.

Lemma parseAccessLevel_labels :
  map Utils.parseAccessLevel [0; 5; 10; 20; 30; 40; 50; 999; -1]
  = ["No Permissions"; "Minimal Access"; "Guest"; "Reporter"; "Developer";
     "Maintainer"; "Owner"; "No Permissions"; "No Permissions"].
Proof. reflexivity. Qed.

(** ** The qualifier translator *)

(** C7.  [addOptionalIssueQuals] sets the assignee-username, assignee-id,
    author-id, confidential and search options from the qualifiers
    [assignee], [assignee_id], [author_id], [confidential] and
    [search_string], each only when that qualifier is present, and leaves
    every other option as it was; an [author] qualifier changes nothing, and
    the translator has no error to return. *)
Theorem addOptionalIssueQuals_fields
    (opts : ListIssuesOptions.t) (q : gmap string QualValue) :
  let r := IssueTable.addOptionalIssueQuals opts q in
  ListIssuesOptions.AssigneeUsername r
    = match q !! "assignee" with
      | Some v => Some (GetStringValue v)
      | None => ListIssuesOptions.AssigneeUsername opts
      end /\
  ListIssuesOptions.AssigneeID r
    = match q !! "assignee_id" with
      | Some v => Some (GetInt64Value v)
      | None => ListIssuesOptions.AssigneeID opts
      end /\
  ListIssuesOptions.AuthorID r
    = match q !! "author_id" with
      | Some v => Some (GetInt64Value v)
      | None => ListIssuesOptions.AuthorID opts
      end /\
  ListIssuesOptions.Confidential r
    = match q !! "confidential" with
      | Some v => Some (GetBoolValue v)
      | None => ListIssuesOptions.Confidential opts
      end /\
  ListIssuesOptions.Search r
    = match q !! "search_string" with
      | Some v => Some (GetStringValue v)
      | None => ListIssuesOptions.Search opts
      end /\
  ListIssuesOptions.Page r = ListIssuesOptions.Page opts /\
  ListIssuesOptions.PerPage r = ListIssuesOptions.PerPage opts /\
  ListIssuesOptions.Scope r = ListIssuesOptions.Scope opts /\
  (forall v : QualValue,
     IssueTable.addOptionalIssueQuals opts (<["author" := v]> q) = r) /\
  IssueTable.addOptionalIssueQuals opts (delete "author" q) = r.
Proof.
  cbv zeta. split_and!;
    try (unfold IssueTable.addOptionalIssueQuals;
         destruct (q !! "assignee"), (q !! "assignee_id"), (q !! "author_id"),
                  (q !! "confidential"), (q !! "search_string"); reflexivity).
  - intros v. unfold IssueTable.addOptionalIssueQuals.
    rewrite !lookup_insert_ne by done. reflexivity.
  - unfold IssueTable.addOptionalIssueQuals.
    rewrite !lookup_delete_ne by done. reflexivity.
Qed.

(** The per-project translator builds its options the same way. *)
Lemma addOptionalProjectIssueQuals_keeps_paging
    (opts : ListProjectIssuesOptions.t) (q : gmap string QualValue) :
  let r := IssueTable.addOptionalProjectIssueQuals opts q in
  ListProjectIssuesOptions.Page r = ListProjectIssuesOptions.Page opts /\
  ListProjectIssuesOptions.PerPage r = ListProjectIssuesOptions.PerPage opts /\
  ListProjectIssuesOptions.Scope r = ListProjectIssuesOptions.Scope opts.
Proof.
  cbv zeta. unfold IssueTable.addOptionalProjectIssueQuals.
  destruct (q !! "assignee"), (q !! "assignee_id"), (q !! "author_id"),
           (q !! "confidential"), (q !! "search_string"); repeat split.
Qed.

(** ** The assignee-list transform *)

Lemma parseAssignees_loop_values (l : list IssueAssignee) (acc : slice string) :
  IssueTable.parseAssignees_loop (map Some l) acc
  = Some match l with
         | [] => acc
         | _ :: _ => Some (slice_elems acc ++ map Username l)
         end.
Proof.
  revert acc. induction l as [| a l IH]; intros acc; [reflexivity |].
  cbn [map IssueTable.parseAssignees_loop]. rewrite IH.
  destruct l as [| b l]; [reflexivity |].
  unfold append at 1. cbn [slice_elems default from_option map id].
  rewrite <- app_assoc. reflexivity.
Qed.

Lemma parseAssignees_loop_nil_element (l : list (option IssueAssignee))
    (acc : slice string) :
  None ∈ l -> IssueTable.parseAssignees_loop l acc = None.
Proof.
  revert acc. induction l as [| x l IH]; intros acc Hin.
  - apply elem_of_nil in Hin. contradiction.
  - destruct x as [a |]; [| reflexivity].
    apply elem_of_cons in Hin as [Heq | Hin]; [discriminate |].
    cbn [IssueTable.parseAssignees_loop]. apply IH, Hin.
Qed.

Lemma all_non_nil_values {A} (l : list (option A)) :
  Forall is_Some l -> exists values, l = map Some values.
Proof.
  induction 1 as [| x l [a ->] _ [values ->]].
  - exists []. reflexivity.
  - exists (a :: values). reflexivity.
Qed.

(** A list of assignees becomes the sequence of their usernames, in the
    order of the input. *)
Lemma parseAssignees_usernames (a : IssueAssignee) (l : list IssueAssignee) :
  IssueTable.parseAssignees (Some (Some (map Some (a :: l))))
  = Returns (inl (Some (Some (map Username (a :: l))))).
Proof.
  unfold IssueTable.parseAssignees. cbn [slice_elems default from_option id].
  rewrite parseAssignees_loop_values. reflexivity.
Qed.

(** C10, as amended.  On an allocated assignee list of length 0,
    [parseAssignees] returns the [nil] slice its loop starts from, not an
    empty sequence, as it does on the [nil] slice; only a [nil] input value
    returns the bare [nil].  On every list none of whose elements is a
    [nil] pointer it returns a value and no error. *)
Theorem parseAssignees_empty_list_is_null :
  IssueTable.parseAssignees (Some (Some [])) = Returns (inl (Some None)) /\
  IssueTable.parseAssignees (Some (Some [])) <> Returns (inl (Some (Some []))) /\
  IssueTable.parseAssignees (Some None) = Returns (inl (Some None)) /\
  IssueTable.parseAssignees None = Returns (inl None) /\
  (forall assignees : slice (option IssueAssignee),
     Forall is_Some (slice_elems assignees) ->
     exists output,
       IssueTable.parseAssignees (Some assignees) = Returns (inl output)).
Proof.
  split_and!; try reflexivity; try discriminate.
  intros assignees Hall.
  destruct (all_non_nil_values _ Hall) as [values Hvalues].
  unfold IssueTable.parseAssignees. rewrite Hvalues, parseAssignees_loop_values.
  eexists. reflexivity.
Qed.

(** [parseAssignees] on the list of Alice and Bob. *)
Lemma parseAssignees_empty_list_is_null_witness :
  exists output,
    IssueTable.parseAssignees (Some (Some [Some Fixtures.alice; Some Fixtures.bob]))
    = Returns (inl output).
Proof.
  apply (proj2 (proj2 (proj2 (proj2 parseAssignees_empty_list_is_null)))
           (Some [Some Fixtures.alice; Some Fixtures.bob])).
  repeat constructor; eexists; reflexivity.
Defined.

(** C10, as stated, fails: on a list of the expected type that holds a [nil]
    element, [parseAssignees] does not return; it panics when it reads the
    username through that element. *)
Lemma parseAssignees_nil_element_panics :
  IssueTable.parseAssignees (Some (Some [Some Fixtures.alice; None]))
  = Panics nilDereference /\
  ~ (exists r,
       IssueTable.parseAssignees (Some (Some [Some Fixtures.alice; None]))
       = Returns r).
Proof.
  split; [reflexivity |]. intros [r Hr]. discriminate Hr.
Qed.

(** ** The date transform *)

Section DateTransform.

Import GoTime.

Lemma digitVal_digit (n : Z) : 0 <= n <= 9 -> digitVal (digit n) = Some n.
Proof.
  intros Hn. destruct n as [| p | p]; [reflexivity | | lia].
  do 4 (try (destruct p as [p | p |]; try reflexivity; try lia)).
Qed.

Lemma appendInt_4 (y : Z) :
  0 <= y <= 9999 ->
  appendInt y 4
  = String (digit (y / 1000)) (String (digit (y / 100 mod 10))
      (String (digit (y / 10 mod 10)) (String (digit (y mod 10)) EmptyString))).
Proof.
  intros Hy. unfold appendInt.
  rewrite (Z.abs_eq y) by lia.
  destruct (Z.ltb_spec y 0) as [? | _]; [lia |].
  destruct (Z.ltb_spec y 10000) as [_ | ?]; [| lia].
  reflexivity.
Qed.

Lemma appendInt_2 (x : Z) :
  0 <= x <= 99 ->
  appendInt x 2 = String (digit (x / 10)) (String (digit (x mod 10)) EmptyString).
Proof.
  intros Hx. unfold appendInt.
  rewrite (Z.abs_eq x) by lia.
  destruct (Z.ltb_spec x 0) as [? | _]; [lia |].
  destruct (Z.ltb_spec x 100) as [_ | ?]; [| lia].
  reflexivity.
Qed.

Lemma daysIn_le_31 (m y : Z) : daysIn m y <= 31.
Proof.
  unfold daysIn.
  destruct m as [| p | p]; try lia.
  do 4 (try (destruct p as [p | p |]; try lia)); destruct (isLeap y); lia.
Qed.

(** Reading back what the layout wrote gives the date again, at midnight
    UTC. *)
Lemma Parse_Format (t : Time) :
  validDate (year t) (month t) (day t) ->
  Parse_iso8601 (Format_iso8601 t) = Some (midnightUTC (year t) (month t) (day t)).
Proof.
  destruct t as [y m d hh mm ss ns]. cbn [year month day].
  intros (Hy & Hm & Hd). pose proof (daysIn_le_31 m y) as H31.
  unfold Format_iso8601. cbn [year month day].
  rewrite (appendInt_4 y), (appendInt_2 m), (appendInt_2 d) by lia.
  cbv [String.append]. unfold Parse_iso8601.
  rewrite !digitVal_digit by (Z.div_mod_to_equations; lia).
  cbn [mbind option_bind].
  replace (1000 * (y / 1000) + 100 * (y / 100 mod 10) + 10 * (y / 10 mod 10) + y mod 10)
    with y by (Z.div_mod_to_equations; lia).
  replace (10 * (m / 10) + m mod 10) with m by (Z.div_mod_to_equations; lia).
  replace (10 * (d / 10) + d mod 10) with d by (Z.div_mod_to_equations; lia).
  cbn [Ascii.eqb Bool.eqb andb].
  destruct (Z.leb_spec 1 m); [| lia]. destruct (Z.leb_spec m 12); [| lia].
  destruct (Z.leb_spec 1 d); [| lia]. destruct (Z.leb_spec d (daysIn m y)); [| lia].
  reflexivity.
Qed.

Lemma digitVal_range (c : ascii) (n : Z) : digitVal c = Some n -> 0 <= n <= 9.
Proof.
  unfold digitVal.
  destruct (Z.leb_spec 48 (Z.of_N (N_of_ascii c)));
    destruct (Z.leb_spec (Z.of_N (N_of_ascii c)) 57); cbn [andb];
    intros [= <-]; lia.
Qed.

(** What the layout reads from a string is a valid date at midnight UTC:
    the values the client library decodes from date-only strings are among
    those [validDate] admits. *)
Lemma Parse_valid (value : string) (t : Time) :
  Parse_iso8601 value = Some t ->
  validDate (year t) (month t) (day t) /\
  t = midnightUTC (year t) (month t) (day t).
Proof.
  unfold Parse_iso8601.
  destruct value as [| y1 [| y2 [| y3 [| y4 [| s1 [| m1 [| m2 [| s2
    [| d1 [| d2 [| ? ?]]]]]]]]]]]; try discriminate.
  destruct (digitVal y1) as [a |] eqn:Ha; [| discriminate].
  destruct (digitVal y2) as [b |] eqn:Hb; [| discriminate].
  destruct (digitVal y3) as [c |] eqn:Hc; [| discriminate].
  destruct (digitVal y4) as [e |] eqn:He; [| discriminate].
  destruct (digitVal m1) as [p |] eqn:Hp; [| discriminate].
  destruct (digitVal m2) as [q |] eqn:Hq; [| discriminate].
  destruct (digitVal d1) as [u |] eqn:Hu; [| discriminate].
  destruct (digitVal d2) as [v |] eqn:Hv; [| discriminate].
  cbn [mbind option_bind].
  apply digitVal_range in Ha, Hb, Hc, He, Hp, Hq, Hu, Hv.
  destruct (_ && _) eqn:Hcond; [| discriminate].
  intros [= <-]. cbn [year month day]. split; [| reflexivity].
  repeat (apply andb_prop in Hcond; destruct Hcond as [Hcond ?]).
  repeat match goal with
         | H : (_ <=? _) = true |- _ => apply Z.leb_le in H
         end.
  unfold validDate. cbn [year month day midnightUTC]. lia.
Qed.

Lemma digit_digitVal (c : ascii) (n : Z) : digitVal c = Some n -> digit n = c.
Proof.
  destruct c as [[] [] [] [] [] [] [] []]; vm_compute;
    intros [= <-]; reflexivity.
Qed.

(** Writing a value that was read from a string gives the string again. *)
Lemma Format_Parse (value : string) (t : Time) :
  Parse_iso8601 value = Some t -> Format_iso8601 t = value.
Proof.
  unfold Parse_iso8601.
  destruct value as [| y1 [| y2 [| y3 [| y4 [| s1 [| m1 [| m2 [| s2
    [| d1 [| d2 [| ? ?]]]]]]]]]]]; try discriminate.
  destruct (digitVal y1) as [a |] eqn:Ha; [| discriminate].
  destruct (digitVal y2) as [b |] eqn:Hb; [| discriminate].
  destruct (digitVal y3) as [c |] eqn:Hc; [| discriminate].
  destruct (digitVal y4) as [e |] eqn:He; [| discriminate].
  destruct (digitVal m1) as [p |] eqn:Hp; [| discriminate].
  destruct (digitVal m2) as [q |] eqn:Hq; [| discriminate].
  destruct (digitVal d1) as [u |] eqn:Hu; [| discriminate].
  destruct (digitVal d2) as [v |] eqn:Hv; [| discriminate].
  cbn [mbind option_bind].
  pose proof (digitVal_range _ _ Ha). pose proof (digitVal_range _ _ Hb).
  pose proof (digitVal_range _ _ Hc). pose proof (digitVal_range _ _ He).
  pose proof (digitVal_range _ _ Hp). pose proof (digitVal_range _ _ Hq).
  pose proof (digitVal_range _ _ Hu). pose proof (digitVal_range _ _ Hv).
  apply digit_digitVal in Ha, Hb, Hc, He, Hp, Hq, Hu, Hv.
  destruct (_ && _) eqn:Hcond; [| discriminate].
  intros [= <-].
  repeat (apply andb_prop in Hcond; destruct Hcond as [Hcond ?]).
  apply Ascii.eqb_eq in Hcond. subst s1.
  match goal with H : Ascii.eqb s2 _ = true |- _ => apply Ascii.eqb_eq in H; subst s2 end.
  unfold Format_iso8601. cbn [year month day midnightUTC].
  rewrite appendInt_4, !appendInt_2 by lia.
  cbv [String.append].
  replace ((1000 * a + 100 * b + 10 * c + e) / 1000) with a
    by (Z.div_mod_to_equations; lia).
  replace ((1000 * a + 100 * b + 10 * c + e) / 100 mod 10) with b
    by (Z.div_mod_to_equations; lia).
  replace ((1000 * a + 100 * b + 10 * c + e) / 10 mod 10) with c
    by (Z.div_mod_to_equations; lia).
  replace ((1000 * a + 100 * b + 10 * c + e) mod 10) with e
    by (Z.div_mod_to_equations; lia).
  replace ((10 * p + q) / 10) with p by (Z.div_mod_to_equations; lia).
  replace ((10 * p + q) mod 10) with q by (Z.div_mod_to_equations; lia).
  replace ((10 * u + v) / 10) with u by (Z.div_mod_to_equations; lia).
  replace ((10 * u + v) mod 10) with v by (Z.div_mod_to_equations; lia).
  congruence.
Qed.

Lemma Format_examples :
  map Format_iso8601
    [midnightUTC 2021 3 9; midnightUTC 1 1 1; midnightUTC 9999 12 31]
  = ["2021-03-09"; "0001-01-01"; "9999-12-31"]%string.
Proof. vm_compute. reflexivity. Qed.

Lemma Parse_examples :
  map Parse_iso8601 ["2020-02-29"; "2021-02-29"; "2021-3-09"; "2021-13-01"]%string
  = [Some (midnightUTC 2020 2 29); None; None; None].
Proof. vm_compute. reflexivity. Qed.

(** C8.  On the [nil] input value the date transform returns [nil] and no
    error; on a date of the calendar, which is what every valid date-only
    string denotes, it returns the timestamp of that date at midnight
    UTC. *)
Theorem isoTimeTransform_dates :
  Utils.isoTimeTransform None = inl None /\
  (forall t : ISOTime,
     validDate (year t) (month t) (day t) ->
     Utils.isoTimeTransform (Some t)
     = inl (Some (midnightUTC (year t) (month t) (day t)))) /\
  (forall (value : string) (t : ISOTime),
     Parse_iso8601 value = Some t ->
     ISOTime_String t = value /\ Utils.isoTimeTransform (Some t) = inl (Some t)).
Proof.
  split; [reflexivity |]. split.
  - intros t Hvalid. unfold Utils.isoTimeTransform, ISOTime_String.
    rewrite (Parse_Format t Hvalid). reflexivity.
  - intros value t Hparse. split; [apply (Format_Parse value t Hparse) |].
    destruct (Parse_valid value t Hparse) as [Hvalid Ht].
    unfold Utils.isoTimeTransform, ISOTime_String.
    rewrite (Parse_Format t Hvalid), <- Ht. reflexivity.
Qed.

End DateTransform.

(** The date transform on 9 March 2021. *)
Lemma isoTimeTransform_dates_witness :
  Utils.isoTimeTransform (Some (GoTime.midnightUTC 2021 3 9))
  = inl (Some (GoTime.midnightUTC 2021 3 9)).
Proof.
  apply (proj1 (proj2 isoTimeTransform_dates) (GoTime.midnightUTC 2021 3 9)).
  unfold GoTime.validDate. simpl. lia.
Defined.

(** ** The page loops *)

Section PageLoops.

Import Utils ProjectTable IssueTable.
Context {Project Issue : Type} {api : GitlabAPI Project Issue}.

Lemma result_streamAll {A} (mk : A -> row Project Issue) items k :
  result (streamAll mk items k) = result k.
Proof. induction items as [| x items IH]; [reflexivity | exact IH]. Qed.

Lemma calls_streamAll {A} (mk : A -> row Project Issue) items k :
  calls (streamAll mk items k) = calls k.
Proof. induction items as [| x items IH]; [reflexivity | exact IH]. Qed.

Lemma streamed_streamAll {A} (mk : A -> row Project Issue) items k :
  streamed (streamAll mk items k) = map mk items ++ streamed k.
Proof.
  induction items as [| x items IH]; [reflexivity |].
  cbn [streamAll foldr StreamListItem streamed map app].
  f_equal. exact IH.
Qed.

Lemma run_eq (r : run Project Issue) o cs rs :
  result r = o -> calls r = cs -> streamed r = rs ->
  r = {| result := o; calls := cs; streamed := rs |}.
Proof. destruct r; cbn; intros -> -> ->; reflexivity. Qed.

Lemma listProjects_loop_pages conn p ps :
  pageChain (fun p => ListProjects conn (ListProjectsOptions.mk p 50)) p ps ->
  forall fuel, (length ps <= fuel)%nat ->
  listProjects_loop fuel conn (ListProjectsOptions.mk p 50)
  = pagedRun (fun p => ListProjectsReq (ListProjectsOptions.mk p 50)) ProjectRow ps.
Proof.
  induction 1 as [p items Hfetch | p items next rest Hfetch Hnext _ IH];
    intros [| fuel] Hfuel; cbn [length] in Hfuel; try lia;
    cbn [listProjects_loop]; rewrite Hfetch; cbn [NextPage].
  - apply run_eq; cbn [call result calls streamed];
      rewrite ?result_streamAll, ?calls_streamAll, ?streamed_streamAll;
      cbn; rewrite ?app_nil_r; reflexivity.
  - destruct (Z.eqb_spec next 0) as [? | _]; [contradiction |].
    unfold ListProjectsOptions.set_Page. cbn [ListProjectsOptions.PerPage].
    rewrite IH by lia.
    apply run_eq; cbn [call result calls streamed];
      rewrite ?result_streamAll, ?calls_streamAll, ?streamed_streamAll;
      reflexivity.
Qed.

(** Pagination of [listProjects]: when the pages the endpoint serves from
    page 1 at page size 50 form a chain that ends in next-page indicator 0,
    the handler, given fuel for them, issues one call per page, starting
    with page 1 and page size 50, streams every project of every page in
    upstream order and returns. *)
Lemma listProjects_pages env d conn ps fuel :
  connect env d = inl conn ->
  pageChain (fun p => ListProjects conn (ListProjectsOptions.mk p 50)) 1 ps ->
  (length ps <= fuel)%nat ->
  listProjects fuel env d
  = pagedRun (fun p => ListProjectsReq (ListProjectsOptions.mk p 50)) ProjectRow ps.
Proof.
  intros Hconn Hchain Hfuel. unfold listProjects. rewrite Hconn.
  apply listProjects_loop_pages; assumption.
Qed.

Lemma allIssuesOptions_paging q :
  ListIssuesOptions.Page (allIssuesOptions q) = 1 /\
  ListIssuesOptions.PerPage (allIssuesOptions q) = 50 /\
  ListIssuesOptions.Scope (allIssuesOptions q) = Some "all"%string.
Proof.
  unfold allIssuesOptions, addOptionalIssueQuals.
  destruct (q !! "assignee"), (q !! "assignee_id"), (q !! "author_id"),
           (q !! "confidential"), (q !! "search_string"); repeat split.
Qed.

Lemma set_Page_set_Page p p' (o : ListIssuesOptions.t) :
  ListIssuesOptions.set_Page p (ListIssuesOptions.set_Page p' o)
  = ListIssuesOptions.set_Page p o.
Proof. reflexivity. Qed.

Lemma set_Page_same (o : ListIssuesOptions.t) :
  ListIssuesOptions.set_Page (ListIssuesOptions.Page o) o = o.
Proof. destruct o; reflexivity. Qed.



End PageLoops.

(** ** The per-project listing path *)

Section ProjectIssues.

Import Utils IssueTable.
Context {Project Issue : Type} {api : GitlabAPI Project Issue}.

(** Every call of the loop carries the empty options value, whatever options
    object the loop was started with. *)
Lemma listProjectIssues_loop_calls fuel conn pid opt :
  Forall (fun r => r = ListProjectIssuesReq pid ListProjectIssuesOptions.empty)
         (calls (listProjectIssues_loop fuel conn pid opt)).
Proof.
  revert opt. induction fuel as [| fuel IH]; intros opt; [constructor |].
  cbn [listProjectIssues_loop call calls]. constructor; [reflexivity |].
  destruct (ListProjectIssues conn pid ListProjectIssuesOptions.empty)
    as [[issues resp] | err]; [| constructor].
  rewrite calls_streamAll.
  destruct (NextPage resp =? 0); [constructor | apply IH].
Qed.

(** With fuel, the loop does issue a first call. *)
Lemma listProjectIssues_loop_first_call fuel conn pid opt :
  head (calls (listProjectIssues_loop (S fuel) conn pid opt))
  = Some (ListProjectIssuesReq pid ListProjectIssuesOptions.empty).
Proof. reflexivity. Qed.

(** The endpoint answers the one request it is ever sent the same way each
    time; when that answer names a next page, the loop has no way out. *)
Lemma listProjectIssues_loop_stuck conn pid issues resp :
  ListProjectIssues conn pid ListProjectIssuesOptions.empty = inl (issues, resp) ->
  NextPage resp <> 0 ->
  forall fuel opt,
    listProjectIssues_loop fuel conn pid opt
    = {| result := OutOfFuel;
         calls := repeat (ListProjectIssuesReq pid ListProjectIssuesOptions.empty) fuel;
         streamed := concat (repeat (map IssueRow issues) fuel) |}.
Proof.
  intros Hfetch Hnext. induction fuel as [| fuel IH]; intros opt; [reflexivity |].
  cbn [listProjectIssues_loop]. rewrite Hfetch.
  destruct (Z.eqb_spec (NextPage resp) 0) as [? | _]; [contradiction |].
  rewrite IH.
  apply run_eq; cbn [call result calls streamed];
    rewrite ?result_streamAll, ?calls_streamAll, ?streamed_streamAll;
    reflexivity.
Qed.

(** When that answer names no next page, the loop ends after one call. *)
Lemma listProjectIssues_loop_single conn pid issues resp fuel opt :
  ListProjectIssues conn pid ListProjectIssuesOptions.empty = inl (issues, resp) ->
  NextPage resp = 0 ->
  listProjectIssues_loop (S fuel) conn pid opt
  = {| result := Done;
       calls := [ListProjectIssuesReq pid ListProjectIssuesOptions.empty];
       streamed := map IssueRow issues |}.
Proof.
  intros Hfetch Hnext. cbn [listProjectIssues_loop]. rewrite Hfetch, Hnext.
  apply run_eq; cbn [call result calls streamed];
    rewrite ?result_streamAll, ?calls_streamAll, ?streamed_streamAll;
    cbn; rewrite ?app_nil_r; reflexivity.
Qed.

Lemma projectIssuesOptions_paging q :
  ListProjectIssuesOptions.Page (projectIssuesOptions q) = 1 /\
  ListProjectIssuesOptions.PerPage (projectIssuesOptions q) = 50 /\
  ListProjectIssuesOptions.Scope (projectIssuesOptions q) = Some "all"%string.
Proof. apply addOptionalProjectIssueQuals_keeps_paging. Qed.

(** C4.  Whatever the qualifiers, every upstream call of [listProjectIssues]
    is the per-project list call with the empty options value, on every
    iteration of the loop; and that value is never the options object the
    handler built from the qualifiers, which has page 1, page size 50 and
    scope "all" and whose page the loop advances.  With fuel for one
    iteration, a resolved connection and a [project_id] qualifier, the first
    such call is issued. *)
Theorem listProjectIssues_sends_empty_options
    (fuel : nat) (env : gmap string string) (d : QueryData) :
  let q := OptionalKeyColumnQuals d in
  Forall (fun r => exists pid,
            r = ListProjectIssuesReq pid ListProjectIssuesOptions.empty)
         (calls (listProjectIssues fuel env d)) /\
  (forall p, ListProjectIssuesOptions.set_Page p (projectIssuesOptions q)
             <> ListProjectIssuesOptions.empty) /\
  (forall conn v,
     connect env d = inl conn -> q !! "project_id" = Some v ->
     head (calls (listProjectIssues (S fuel) env d))
     = Some (ListProjectIssuesReq (GetInt64Value v) ListProjectIssuesOptions.empty)).
Proof.
  cbv zeta. split_and!.
  - unfold listProjectIssues.
    destruct (connect env d) as [conn | err]; [| constructor].
    destruct (OptionalKeyColumnQuals d !! "project_id") as [v |]; [| constructor].
    eapply Forall_impl; [apply listProjectIssues_loop_calls |].
    cbn beta. intros r ->. eexists; reflexivity.
  - intros p Heq.
    pose proof (projectIssuesOptions_paging (OptionalKeyColumnQuals d)) as (_ & Hsize & _).
    apply (f_equal ListProjectIssuesOptions.PerPage) in Heq.
    cbn [ListProjectIssuesOptions.set_Page ListProjectIssuesOptions.PerPage
         ListProjectIssuesOptions.empty] in Heq.
    rewrite Hsize in Heq. discriminate.
  - intros conn v Hconn Hpid. unfold listProjectIssues. rewrite Hconn, Hpid.
    reflexivity.
Qed.

End ProjectIssues.

(** [listProjectIssues] for project 7 on a self-hosted instance. *)
Lemma listProjectIssues_sends_empty_options_witness :
  head (calls (IssueTable.listProjectIssues (api := Fixtures.api3) 2
                 Fixtures.envSelfHosted Fixtures.project7))
  = Some (ListProjectIssuesReq 7 ListProjectIssuesOptions.empty).
Proof.
  apply (proj2 (proj2 (listProjectIssues_sends_empty_options (api := Fixtures.api3) 1
                         Fixtures.envSelfHosted Fixtures.project7))
           {| client_token := "glpat"; client_baseURL := Fixtures.selfHosted |}
           (Int64Value 7)).
  - vm_compute. reflexivity.
  - vm_compute. reflexivity.
Defined.

(** ** The issue list handler: guard and routing *)

Section ListIssues.

Import Utils IssueTable.
Context {Project Issue : Type} {api : GitlabAPI Project Issue}.

(** The guard fires exactly when none of the four qualifiers is supplied and
    [isGitlabCloud] holds. *)
Lemma cloudGuard_true_iff (d : QueryData) :
  cloudGuard d = true <->
  OptionalKeyColumnQuals d !! "assignee" = None /\
  OptionalKeyColumnQuals d !! "assignee_id" = None /\
  OptionalKeyColumnQuals d !! "author_id" = None /\
  OptionalKeyColumnQuals d !! "project_id" = None /\
  isGitlabCloud d = true.
Proof.
  unfold cloudGuard. rewrite !andb_true_iff, !bool_decide_eq_true. tauto.
Qed.

(** When the connection config names the hosted endpoint and none of the
    four qualifiers is supplied, [listIssues] returns the unsupported-query
    error and issues no upstream call. *)
Lemma listIssues_guarded fuel env (d : QueryData) :
  BaseUrl (GetConfig (QConnection d)) = Some GitlabCloudApiUrl ->
  OptionalKeyColumnQuals d !! "assignee" = None ->
  OptionalKeyColumnQuals d !! "assignee_id" = None ->
  OptionalKeyColumnQuals d !! "author_id" = None ->
  OptionalKeyColumnQuals d !! "project_id" = None ->
  listIssues fuel env d = halt (Failed (Errorf err_cloud_quals)) /\
  calls (listIssues fuel env d) = [].
Proof.
  intros Hcloud Ha Hai Hau Hp.
  assert (cloudGuard d = true) as Hguard.
  { apply cloudGuard_true_iff. rewrite isGitlabCloud_true_iff. auto. }
  unfold listIssues. rewrite Hguard. split; reflexivity.
Qed.

(** Any one of the four qualifiers takes the call past the guard. *)
Lemma cloudGuard_passed (d : QueryData) (key : string) :
  key ∈ ["assignee"; "assignee_id"; "author_id"; "project_id"]%string ->
  is_Some (OptionalKeyColumnQuals d !! key) ->
  cloudGuard d = false.
Proof.
  intros Hkey [v Hv].
  destruct (cloudGuard d) eqn:Hguard; [| reflexivity].
  apply cloudGuard_true_iff in Hguard as (Ha & Hai & Hau & Hp & _).
  rewrite !elem_of_cons, elem_of_nil in Hkey.
  destruct Hkey as [-> | [-> | [-> | [-> | []]]]]; congruence.
Qed.

(** Without a base address in the connection config the guard never fires,
    whatever the environment and the qualifiers. *)
Lemma cloudGuard_no_config (d : QueryData) :
  BaseUrl (GetConfig (QConnection d)) = None -> cloudGuard d = false.
Proof.
  intros Hnone. unfold cloudGuard.
  rewrite (isGitlabCloud_no_config d Hnone). apply andb_false_r.
Qed.

Lemma listAllIssues_loop_calls fuel conn opt :
  Forall (fun r => exists o, r = ListIssuesReq o)
         (calls (listAllIssues_loop fuel conn opt)).
Proof.
  revert opt. induction fuel as [| fuel IH]; intros opt; [constructor |].
  cbn [listAllIssues_loop call calls]. constructor; [eexists; reflexivity |].
  destruct (ListIssues conn opt) as [[issues resp] | err]; [| constructor].
  rewrite calls_streamAll.
  destruct (NextPage resp =? 0); [constructor | apply IH].
Qed.

(** C5.  Past the guard, a [project_id] qualifier sends [listIssues] down
    [listProjectIssues], all of whose upstream calls are per-project list
    calls for that project id; without one it goes down [listAllIssues], all
    of whose upstream calls are instance-wide list calls. *)
Theorem listIssues_routing (fuel : nat) (env : gmap string string) (d : QueryData) :
  cloudGuard d = false ->
  (forall v, OptionalKeyColumnQuals d !! "project_id" = Some v ->
     listIssues fuel env d = listProjectIssues fuel env d /\
     Forall (fun r => exists o, r = ListProjectIssuesReq (GetInt64Value v) o)
            (calls (listIssues fuel env d))) /\
  (OptionalKeyColumnQuals d !! "project_id" = None ->
     listIssues fuel env d = listAllIssues fuel env d /\
     Forall (fun r => exists o, r = ListIssuesReq o)
            (calls (listIssues fuel env d))).
Proof.
  intros Hguard. unfold listIssues. rewrite Hguard. split.
  - intros v Hv. rewrite Hv. split; [reflexivity |].
    unfold listProjectIssues.
    destruct (connect env d) as [conn | err]; [| constructor].
    rewrite Hv.
    eapply Forall_impl; [apply listProjectIssues_loop_calls |].
    cbn beta. intros r ->. eexists; reflexivity.
  - intros Hnone. rewrite Hnone. split; [reflexivity |].
    unfold listAllIssues.
    destruct (connect env d) as [conn | err]; [| constructor].
    apply listAllIssues_loop_calls.
Qed.

End ListIssues.

(** Routing of a call for the issues of project 7 on a self-hosted
    instance. *)
Lemma listIssues_routing_witness :
  IssueTable.cloudGuard Fixtures.project7 = false /\
  IssueTable.listIssues (api := Fixtures.api1) 2 Fixtures.envSelfHosted Fixtures.project7
  = IssueTable.listProjectIssues (api := Fixtures.api1) 2
      Fixtures.envSelfHosted Fixtures.project7.
Proof.
  assert (IssueTable.cloudGuard Fixtures.project7 = false) as Hguard
    by (vm_compute; reflexivity).
  split; [exact Hguard |].
  apply (proj1 (listIssues_routing (api := Fixtures.api1) 2
                  Fixtures.envSelfHosted Fixtures.project7 Hguard)
           (Int64Value 7)).
  vm_compute. reflexivity.
Defined.

(** C1, at the input on which the code departs from it: the hosted endpoint
    is the address [connect] resolves, taken from [GITLAB_ADDR], and no
    qualifier is supplied.  [listIssues] does not return the
    unsupported-query error: it goes on to the instance-wide listing and
    calls the upstream. *)
Theorem listIssues_cloud_from_environment :
  OptionalKeyColumnQuals Fixtures.noQuals = ∅ /\
  Utils.connect (api := Fixtures.api1) Fixtures.envCloud Fixtures.noQuals
    = inl {| client_token := "glpat"; client_baseURL := GitlabCloudApiUrl |} /\
  IssueTable.cloudGuard Fixtures.noQuals = false /\
  IssueTable.listIssues (api := Fixtures.api1) 1 Fixtures.envCloud Fixtures.noQuals
  = {| result := Done;
       calls := [ListIssuesReq
                   (ListIssuesOptions.mk 1 50 (Some "all"%string)
                      None None None None None)];
       streamed := [IssueRow 11; IssueRow 12] |}.
Proof. split_and!; try reflexivity; vm_compute; reflexivity. Qed.

(** The same call with the hosted endpoint in the connection config is
    refused without an upstream call. *)
Lemma listIssues_cloud_from_config :
  IssueTable.listIssues (api := Fixtures.api1) 1
    Fixtures.envSelfHosted Fixtures.cloudConfigNoQuals
  = halt (Failed (Errorf IssueTable.err_cloud_quals)).
Proof. vm_compute. reflexivity. Qed.

(** ** Pagination over three pages *)

(** [listProjects] over pages 1→2, 2→3, 3→0: three calls, for pages 1, 2
    and 3 at page size 50, all five projects streamed in order. *)
Lemma listProjects_three_pages :
  ProjectTable.listProjects (api := Fixtures.api3) 3
    Fixtures.envSelfHosted Fixtures.noQuals
  = {| result := Done;
       calls := [ListProjectsReq (ListProjectsOptions.mk 1 50);
                 ListProjectsReq (ListProjectsOptions.mk 2 50);
                 ListProjectsReq (ListProjectsOptions.mk 3 50)];
       streamed := map ProjectRow ["a"; "b"; "c"; "d"; "e"]%string |}.
Proof. vm_compute. reflexivity. Qed.

(** [listAllIssues] over three pages, the same. *)
Lemma listAllIssues_three_pages :
  let opt p :=
    ListIssuesOptions.mk p 50 (Some "all"%string) None None None None None in
  IssueTable.listIssues (api := Fixtures.api3) 3
    Fixtures.envSelfHosted Fixtures.noQuals
  = {| result := Done;
       calls := [ListIssuesReq (opt 1); ListIssuesReq (opt 2); ListIssuesReq (opt 3)];
       streamed := map IssueRow [11; 12; 13; 14; 15] |}.
Proof. vm_compute. reflexivity. Qed.

(** C3, at the input on which the code departs from it: the issues of
    project 7, which the endpoint serves in three pages 1→2, 2→3, 3→0.
    Every call of the handler carries the empty options value, so none asks
    for page 1 at page size 50; each is answered with the first page and
    next-page indicator 2; the handler streams the first page once per call
    and, whatever the fuel, has not returned. *)
Theorem listProjectIssues_three_pages_never_ends (fuel : nat) :
  IssueTable.listIssues (api := Fixtures.api3) fuel
    Fixtures.envSelfHosted Fixtures.project7
  = {| result := OutOfFuel;
       calls := repeat (ListProjectIssuesReq 7 ListProjectIssuesOptions.empty) fuel;
       streamed := concat (repeat [IssueRow 11; IssueRow 12] fuel) |}.
Proof.
  unfold IssueTable.listIssues.
  replace (IssueTable.cloudGuard Fixtures.project7) with false
    by (vm_compute; reflexivity).
  replace (OptionalKeyColumnQuals Fixtures.project7 !! "project_id")
    with (Some (Int64Value 7)) by (vm_compute; reflexivity).
  unfold IssueTable.listProjectIssues.
  replace (Utils.connect (api := Fixtures.api3) Fixtures.envSelfHosted Fixtures.project7)
    with (inl {| client_token := "glpat"; client_baseURL := Fixtures.selfHosted |}
          : Client + error)
    by (vm_compute; reflexivity).
  replace (OptionalKeyColumnQuals Fixtures.project7 !! "project_id")
    with (Some (Int64Value 7)) by (vm_compute; reflexivity).
  cbn [GetInt64Value].
  apply (listProjectIssues_loop_stuck (api := Fixtures.api3) _ 7
           [11; 12] {| NextPage := 2 |}); [reflexivity | discriminate].
Qed.

(** * Further properties of the package *)

(** ** [sanitizeUrl] *)

Section SanitizeUrl.

Import Utils GoStrings.

Lemma append_cons (c : ascii) (s t : string) :
  String.append (String c s) t = String c (String.append s t).
Proof. reflexivity. Qed.

Lemma HasPrefix_double_slash (s : string) :
  HasPrefix s "//" = true <-> exists rest, s = String "/" (String "/" rest).
Proof.
  split.
  - destruct s as [| a [| b rest]]; cbn [HasPrefix]; try discriminate.
    + rewrite andb_false_r. discriminate.
    + rewrite !andb_true_iff, !Ascii.eqb_eq.
      intros [<- [<- _]]. eexists; reflexivity.
  - intros [rest ->]. reflexivity.
Qed.

Lemma sanitizeUrl_double (rest : string) :
  sanitizeUrl (String "/" (String "/" rest)) = String "/" (sanitizeUrl rest).
Proof. reflexivity. Qed.

Lemma sanitizeUrl_other (c : ascii) (rest : string) :
  HasPrefix (String c rest) "//" = false ->
  sanitizeUrl (String c rest) = String c (sanitizeUrl rest).
Proof.
  intros Hno. unfold sanitizeUrl, ReplaceAll. cbn [replaceFrom].
  rewrite Hno. reflexivity.
Qed.

(** Induction along the scan: a match of the two slashes, or one byte that
    does not start a match. *)
Lemma sanitizeUrl_ind (P : string -> Prop) :
  P EmptyString ->
  (forall rest, P rest -> P (String "/" (String "/" rest))) ->
  (forall c rest, HasPrefix (String c rest) "//" = false ->
                  P rest -> P (String c rest)) ->
  forall url, P url.
Proof.
  intros Hempty Hdouble Hother url.
  assert (forall n s, (String.length s <= n)%nat -> P s) as Hall.
  { induction n as [| n IH]; intros s Hlen.
    - destruct s; [exact Hempty | cbn in Hlen; lia].
    - destruct s as [| c rest]; [exact Hempty |].
      destruct (HasPrefix (String c rest) "//") eqn:Hpre.
      + apply HasPrefix_double_slash in Hpre as [rest' [= -> ->]].
        apply Hdouble, IH. cbn in Hlen. lia.
      + apply Hother; [exact Hpre |]. apply IH. cbn in Hlen. lia. }
  apply (Hall (String.length url)). lia.
Qed.

Lemma sanitizeUrl_length (url : string) :
  (String.length (sanitizeUrl url) <= String.length url)%nat.
Proof.
  induction url as [| rest IH | c rest Hno IH] using sanitizeUrl_ind.
  - cbn. lia.
  - rewrite sanitizeUrl_double. cbn [String.length]. lia.
  - rewrite sanitizeUrl_other by exact Hno. cbn [String.length]. lia.
Qed.

Lemma sanitizeUrl_shrinks (url : string) :
  Contains url "//" = true ->
  (String.length (sanitizeUrl url) < String.length url)%nat.
Proof.
  induction url as [| rest IH | c rest Hno IH] using sanitizeUrl_ind.
  - discriminate.
  - intros _. rewrite sanitizeUrl_double. cbn [String.length].
    pose proof (sanitizeUrl_length rest). lia.
  - cbn [Contains]. rewrite Hno, orb_false_l. intros Hrest.
    rewrite sanitizeUrl_other by exact Hno. cbn [String.length].
    specialize (IH Hrest). lia.
Qed.

(** X1.  The URLs [sanitizeUrl] leaves as they are are exactly those that
    hold no two slashes in a row. *)
Theorem sanitizeUrl_fixed_iff (url : string) :
  sanitizeUrl url = url <-> Contains url "//" = false.
Proof.
  split.
  - intros Hfix. destruct (Contains url "//") eqn:Hc; [| reflexivity].
    apply sanitizeUrl_shrinks in Hc. rewrite Hfix in Hc. lia.
  - induction url as [| rest IH | c rest Hno IH] using sanitizeUrl_ind.
    + reflexivity.
    + discriminate.
    + cbn [Contains]. rewrite Hno, orb_false_l. intros Hrest.
      rewrite sanitizeUrl_other by exact Hno. rewrite (IH Hrest). reflexivity.
Qed.

(** X2.  [sanitizeUrl] never makes a URL longer, and it keeps every byte
    other than a slash, in order. *)
Theorem sanitizeUrl_keeps_other_bytes (url : string) :
  (String.length (sanitizeUrl url) <= String.length url)%nat /\
  List.filter (fun c => negb (Ascii.eqb c "/"))
              (list_ascii_of_string (sanitizeUrl url))
  = List.filter (fun c => negb (Ascii.eqb c "/")) (list_ascii_of_string url).
Proof.
  split; [apply sanitizeUrl_length |].
  induction url as [| rest IH | c rest Hno IH] using sanitizeUrl_ind.
  - reflexivity.
  - rewrite sanitizeUrl_double. cbn. exact IH.
  - rewrite sanitizeUrl_other by exact Hno.
    cbn [list_ascii_of_string List.filter]. rewrite IH. reflexivity.
Qed.

Lemma sanitizeUrl_before_first_slash (s x : string) :
  Contains s "/" = false ->
  sanitizeUrl (String.append s x) = String.append s (sanitizeUrl x).
Proof.
  induction s as [| c s IH]; intros Hs; [reflexivity |].
  cbn [Contains HasPrefix] in Hs. rewrite andb_true_r in Hs.
  apply orb_false_elim in Hs as [Hc Hs].
  rewrite !append_cons, sanitizeUrl_other, (IH Hs); [reflexivity |].
  cbn [HasPrefix]. rewrite Hc. reflexivity.
Qed.

Lemma sanitizeUrl_run (n : nat) (t : string) :
  HasPrefix t "/" = false ->
  sanitizeUrl (String.append (string_of_list_ascii (repeat "/"%char n)) t)
  = String.append (string_of_list_ascii (repeat "/"%char (Nat.div2 (S n))))
                  (sanitizeUrl t)
  /\
  sanitizeUrl (String.append (string_of_list_ascii (repeat "/"%char (S n))) t)
  = String.append (string_of_list_ascii (repeat "/"%char (Nat.div2 (S (S n)))))
                  (sanitizeUrl t).
Proof.
  intros Ht. induction n as [| n [IH0 IH1]].
  - split; [reflexivity |].
    cbn [repeat string_of_list_ascii Nat.div2]. rewrite !append_cons.
    change (String.append EmptyString t) with t.
    apply sanitizeUrl_other.
    destruct t as [| b t]; [reflexivity |].
    cbn [HasPrefix] in Ht |- *. rewrite Ht. reflexivity.
  - split; [exact IH1 |].
    change (repeat "/"%char (S (S n))) with ("/"%char :: "/"%char :: repeat "/"%char n).
    cbn [string_of_list_ascii]. rewrite !append_cons, sanitizeUrl_double, IH0.
    reflexivity.
Qed.

(** X3.  After a prefix without slash, a run of [n] slashes that ends there
    comes out as a run of [(n + 1) / 2] slashes: the scan halves the run and
    does not look at its own output, so runs of three or more keep a double
    slash, and the two slashes after a URL scheme become one. *)
Theorem sanitizeUrl_halves_slash_run (s t : string) (n : nat) :
  Contains s "/" = false ->
  HasPrefix t "/" = false ->
  sanitizeUrl
    (String.append s (String.append (string_of_list_ascii (repeat "/"%char n)) t))
  = String.append s
      (String.append (string_of_list_ascii (repeat "/"%char (Nat.div2 (S n))))
                     (sanitizeUrl t)).
Proof.
  intros Hs Ht. rewrite (sanitizeUrl_before_first_slash s _ Hs).
  f_equal. apply (sanitizeUrl_run n t Ht).
Qed.

End SanitizeUrl.

Lemma sanitizeUrl_fixed_iff_witness :
  Utils.sanitizeUrl "api/v4/projects" = "api/v4/projects"%string.
Proof.
  apply (proj2 (sanitizeUrl_fixed_iff "api/v4/projects")).
  vm_compute. reflexivity.
Defined.

Lemma sanitizeUrl_halves_slash_run_witness :
  Utils.sanitizeUrl "https:///gitlab.example.com//api"
  = "https://gitlab.example.com/api"%string.
Proof.
  apply (sanitizeUrl_halves_slash_run "https:" "gitlab.example.com//api" 3);
    vm_compute; reflexivity.
Defined.

(** ** [connect], seen from its callers *)

Section ConnectCallers.

Import Utils ProjectTable IssueTable.
Context {Project Issue : Type} {api : GitlabAPI Project Issue}.

(** X4.  A client that [connect] returns was built by the library's
    constructor from the merged token and the merged base address, and both
    of them were non-empty. *)
Theorem connect_client_origin (env : gmap string string) (d : QueryData)
    (client : Client) :
  connect env d = inl client ->
  mergedBaseUrl env d <> EmptyString /\
  mergedToken env d <> EmptyString /\
  NewClient (mergedToken env d) (mergedBaseUrl env d) = inl client.
Proof.
  unfold connect.
  destruct (decide (mergedBaseUrl env d = EmptyString)) as [? | Hb]; [discriminate |].
  destruct (decide (mergedToken env d = EmptyString)) as [? | Ht]; [discriminate |].
  destruct (NewClient _ _) as [c | e]; [| discriminate].
  intros [= ->]. auto.
Qed.

(** X5.  [connect] reads two variables of the environment and the connection
    of the query, nothing else: other variables and the qualifiers of the
    query do not change its result. *)
Theorem connect_reads_only (env env' : gmap string string) (d d' : QueryData) :
  env !! "GITLAB_ADDR" = env' !! "GITLAB_ADDR" ->
  env !! "GITLAB_TOKEN" = env' !! "GITLAB_TOKEN" ->
  QConnection d = QConnection d' ->
  connect env d = connect env' d'.
Proof.
  intros Haddr Htoken Hconn.
  unfold connect, mergedBaseUrl, mergedToken, Getenv.
  rewrite Haddr, Htoken, Hconn. reflexivity.
Qed.

(** X6.  An override in the connection config counts even when it is the
    empty string: the value of the environment is not used in its place, and
    resolution fails with the message of the field. *)
Theorem connect_empty_override (env : gmap string string) (d : QueryData) :
  (BaseUrl (GetConfig (QConnection d)) = Some EmptyString ->
     connect env d = inr (Errorf err_no_addr)) /\
  (Token (GetConfig (QConnection d)) = Some EmptyString ->
     mergedBaseUrl env d <> EmptyString ->
     connect env d = inr (Errorf err_no_token)).
Proof.
  split.
  - intros Hb. apply connect_no_addr, (mergedBaseUrl_config env d _ Hb).
  - intros Ht Hb. apply connect_no_token; [exact Hb |].
    apply (mergedToken_config env d _ Ht).
Qed.

(** X7.  When the connection cannot be resolved, each list handler returns
    the error of [connect] without an upstream call and without a row,
    whatever the fuel; [listIssues] does so whenever its guard lets the call
    through. *)
Theorem list_handlers_connect_failure (fuel : nat) (env : gmap string string)
    (d : QueryData) (err : error) :
  connect env d = inr err ->
  listProjects fuel env d = halt (Failed err) /\
  listAllIssues fuel env d = halt (Failed err) /\
  listProjectIssues fuel env d = halt (Failed err) /\
  (cloudGuard d = false -> listIssues fuel env d = halt (Failed err)).
Proof.
  intros Hconn. split_and!.
  - unfold listProjects. rewrite Hconn. reflexivity.
  - unfold listAllIssues. rewrite Hconn. reflexivity.
  - unfold listProjectIssues. rewrite Hconn. reflexivity.
  - intros Hguard. unfold listIssues, listProjectIssues, listAllIssues.
    rewrite Hguard, Hconn.
    destruct (OptionalKeyColumnQuals d !! "project_id"); reflexivity.
Qed.

(** X8.  With the hosted endpoint as base address of the connection config
    and none of [assignee], [assignee_id], [author_id] and [project_id]
    supplied, [listIssues] returns the unsupported-query error with no
    upstream call and no row.  Neither the environment nor the other
    qualifiers matter, and the answer comes before connection resolution: a
    missing token is not reported. *)
Theorem listIssues_guard_refuses (fuel : nat) (env : gmap string string)
    (d : QueryData) :
  BaseUrl (GetConfig (QConnection d)) = Some GitlabCloudApiUrl ->
  OptionalKeyColumnQuals d !! "assignee" = None ->
  OptionalKeyColumnQuals d !! "assignee_id" = None ->
  OptionalKeyColumnQuals d !! "author_id" = None ->
  OptionalKeyColumnQuals d !! "project_id" = None ->
  result (listIssues fuel env d) = Failed (Errorf err_cloud_quals) /\
  calls (listIssues fuel env d) = [] /\
  streamed (listIssues fuel env d) = [].
Proof.
  intros Hcloud Ha Hai Hau Hp.
  destruct (listIssues_guarded fuel env d Hcloud Ha Hai Hau Hp) as [-> _].
  repeat split.
Qed.

(** X9.  Any one of the qualifiers [assignee], [assignee_id], [author_id]
    and [project_id] takes [listIssues] past the guard, whatever the base
    address: the call is handled by [listProjectIssues] when [project_id] is
    among the qualifiers and by [listAllIssues] otherwise. *)
Theorem listIssues_guard_passes (fuel : nat) (env : gmap string string)
    (d : QueryData) (key : string) :
  key ∈ ["assignee"; "assignee_id"; "author_id"; "project_id"]%string ->
  is_Some (OptionalKeyColumnQuals d !! key) ->
  listIssues fuel env d
  = match OptionalKeyColumnQuals d !! "project_id" with
    | Some _ => listProjectIssues fuel env d
    | None => listAllIssues fuel env d
    end.
Proof.
  intros Hkey Hsome. unfold listIssues.
  rewrite (cloudGuard_passed d key Hkey Hsome). reflexivity.
Qed.

End ConnectCallers.

Lemma connect_client_origin_witness :
  NewClient (GitlabAPI := Fixtures.api1)
    (Utils.mergedToken Fixtures.envSelfHosted Fixtures.noQuals)
    (Utils.mergedBaseUrl Fixtures.envSelfHosted Fixtures.noQuals)
  = inl Fixtures.connectedClient.
Proof.
  apply (connect_client_origin (api := Fixtures.api1)
           Fixtures.envSelfHosted Fixtures.noQuals Fixtures.connectedClient).
  vm_compute. reflexivity.
Defined.

Lemma connect_reads_only_witness :
  Utils.connect (api := Fixtures.api1) Fixtures.envSelfHosted Fixtures.noQuals
  = Utils.connect (api := Fixtures.api1)
      (<["HOME" := "/root"]> Fixtures.envSelfHosted) Fixtures.aliceCrash.
Proof.
  apply (connect_reads_only (api := Fixtures.api1)); vm_compute; reflexivity.
Defined.

Lemma connect_empty_override_witness :
  Utils.connect (api := Fixtures.api1) Fixtures.envSelfHosted Fixtures.emptyOverride
  = inr (Errorf Utils.err_no_addr).
Proof.
  apply (proj1 (connect_empty_override (api := Fixtures.api1)
                  Fixtures.envSelfHosted Fixtures.emptyOverride)).
  vm_compute. reflexivity.
Defined.

Lemma list_handlers_connect_failure_witness :
  ProjectTable.listProjects (api := Fixtures.api3) 5
    Fixtures.envNoToken Fixtures.noQuals
  = halt (Failed (Errorf Utils.err_no_token)).
Proof.
  refine (proj1 (list_handlers_connect_failure (api := Fixtures.api3) 5
                   Fixtures.envNoToken Fixtures.noQuals
                   (Errorf Utils.err_no_token) _)).
  vm_compute. reflexivity.
Defined.

Lemma listIssues_guard_refuses_witness :
  calls (IssueTable.listIssues (api := Fixtures.api3) 5
           Fixtures.envNoToken Fixtures.cloudConfigNoQuals) = [].
Proof.
  refine (proj1 (proj2 (listIssues_guard_refuses (api := Fixtures.api3) 5
                          Fixtures.envNoToken Fixtures.cloudConfigNoQuals
                          _ _ _ _ _)));
    vm_compute; reflexivity.
Defined.

Lemma listIssues_guard_passes_witness :
  IssueTable.listIssues (api := Fixtures.api3) 5
    Fixtures.envSelfHosted Fixtures.cloudConfigAssignee
  = IssueTable.listAllIssues (api := Fixtures.api3) 5
      Fixtures.envSelfHosted Fixtures.cloudConfigAssignee.
Proof.
  apply (listIssues_guard_passes (api := Fixtures.api3) 5
           Fixtures.envSelfHosted Fixtures.cloudConfigAssignee "assignee_id").
  - set_solver.
  - vm_compute. eexists; reflexivity.
Defined.

(** ** Pagination of [listProjects] and [listAllIssues] *)

Section Pagination.

Import Utils ProjectTable IssueTable.
Context {Project Issue : Type} {api : GitlabAPI Project Issue}.

Lemma pageChain_head {A} (fetch : Z -> reply A) p ps :
  pageChain fetch p ps -> head (map fst ps) = Some p.
Proof. destruct 1; reflexivity. Qed.

(** X10.  When the pages the project endpoint serves from page 1 at page
    size 50 form a chain that ends with next-page indicator 0,
    [listProjects] returns without error after one call per page, the first
    of them for page 1 at page size 50 and each later one for the page the
    previous answer named, having streamed the projects of all pages in
    upstream order. *)
Theorem listProjects_pagination (env : gmap string string) (d : QueryData)
    (conn : Client) (ps : list (Z * list Project)) (fuel : nat) :
  connect env d = inl conn ->
  pageChain (fun p => ListProjects conn (ListProjectsOptions.mk p 50)) 1 ps ->
  (length ps <= fuel)%nat ->
  result (listProjects fuel env d) = Done /\
  calls (listProjects fuel env d)
    = map (fun pg => ListProjectsReq (ListProjectsOptions.mk (fst pg) 50)) ps /\
  length (calls (listProjects fuel env d)) = length ps /\
  head (calls (listProjects fuel env d))
    = Some (ListProjectsReq (ListProjectsOptions.mk 1 50)) /\
  streamed (listProjects fuel env d)
    = concat (map (fun pg => map ProjectRow (snd pg)) ps).
Proof.
  intros Hconn Hchain Hfuel.
  rewrite (listProjects_pages env d conn ps fuel Hconn Hchain Hfuel).
  cbn [pagedRun result calls streamed]. split_and!; try reflexivity.
  - apply length_map.
  - pose proof (pageChain_head _ _ _ Hchain) as Hhead.
    destruct ps as [| [p items] ps]; [discriminate |].
    cbn in Hhead |- *. congruence.
Qed.



Lemma listAllIssues_loop_options fuel conn opt p :
  Forall (fun r => exists p', r = ListIssuesReq (ListIssuesOptions.set_Page p' opt))
         (calls (listAllIssues_loop fuel conn (ListIssuesOptions.set_Page p opt))).
Proof.
  revert p. induction fuel as [| fuel IH]; intros p; [constructor |].
  cbn [listAllIssues_loop call calls]. constructor; [eexists; reflexivity |].
  destruct (ListIssues conn _) as [[issues resp] | err]; [| constructor].
  rewrite calls_streamAll.
  destruct (NextPage resp =? 0); [constructor |].
  rewrite set_Page_set_Page. apply IH.
Qed.


Lemma listProjects_loop_error conn p ps q err :
  pagePrefix (fun p => ListProjects conn (ListProjectsOptions.mk p 50)) p ps q ->
  ListProjects conn (ListProjectsOptions.mk q 50) = inr err ->
  forall fuel, (length ps < fuel)%nat ->
  listProjects_loop fuel conn (ListProjectsOptions.mk p 50)
  = {| result := Failed err;
       calls := map (fun pg => ListProjectsReq (ListProjectsOptions.mk (fst pg) 50)) ps
                ++ [ListProjectsReq (ListProjectsOptions.mk q 50)];
       streamed := concat (map (fun pg => map ProjectRow (snd pg)) ps) |}.
Proof.
  intros Hprefix Herr.
  induction Hprefix as [p | p items next rest q Hfetch Hnext _ IH];
    intros [| fuel] Hfuel; cbn [length] in Hfuel; try lia;
    cbn [listProjects_loop].
  - rewrite Herr. reflexivity.
  - rewrite Hfetch. cbn [NextPage].
    destruct (Z.eqb_spec next 0) as [? | _]; [contradiction |].
    unfold ListProjectsOptions.set_Page. cbn [ListProjectsOptions.PerPage].
    rewrite (IH Herr) by lia.
    apply run_eq; cbn [call result calls streamed];
      rewrite ?result_streamAll, ?calls_streamAll, ?streamed_streamAll;
      reflexivity.
Qed.

Lemma listAllIssues_loop_error conn opt p ps q err :
  pagePrefix (fun p => ListIssues conn (ListIssuesOptions.set_Page p opt)) p ps q ->
  ListIssues conn (ListIssuesOptions.set_Page q opt) = inr err ->
  forall fuel, (length ps < fuel)%nat ->
  listAllIssues_loop fuel conn (ListIssuesOptions.set_Page p opt)
  = {| result := Failed err;
       calls := map (fun pg => ListIssuesReq (ListIssuesOptions.set_Page (fst pg) opt)) ps
                ++ [ListIssuesReq (ListIssuesOptions.set_Page q opt)];
       streamed := concat (map (fun pg => map IssueRow (snd pg)) ps) |}.
Proof.
  intros Hprefix Herr.
  induction Hprefix as [p | p items next rest q Hfetch Hnext _ IH];
    intros [| fuel] Hfuel; cbn [length] in Hfuel; try lia;
    cbn [listAllIssues_loop].
  - rewrite Herr. reflexivity.
  - rewrite Hfetch. cbn [NextPage].
    destruct (Z.eqb_spec next 0) as [? | _]; [contradiction |].
    rewrite set_Page_set_Page, (IH Herr) by lia.
    apply run_eq; cbn [call result calls streamed];
      rewrite ?result_streamAll, ?calls_streamAll, ?streamed_streamAll;
      reflexivity.
Qed.

(** X13.  An upstream error ends [listProjects] at once: when the endpoint
    has served some pages from page 1 and fails on the request for the next,
    the handler returns that error unchanged, the failed call is its last
    one, and the projects of the pages before it have been streamed. *)
Theorem listProjects_upstream_error (env : gmap string string) (d : QueryData)
    (conn : Client) (ps : list (Z * list Project)) (q : Z) (err : error)
    (fuel : nat) :
  connect env d = inl conn ->
  pagePrefix (fun p => ListProjects conn (ListProjectsOptions.mk p 50)) 1 ps q ->
  ListProjects conn (ListProjectsOptions.mk q 50) = inr err ->
  (length ps < fuel)%nat ->
  listProjects fuel env d
  = {| result := Failed err;
       calls := map (fun pg => ListProjectsReq (ListProjectsOptions.mk (fst pg) 50)) ps
                ++ [ListProjectsReq (ListProjectsOptions.mk q 50)];
       streamed := concat (map (fun pg => map ProjectRow (snd pg)) ps) |}.
Proof.
  intros Hconn Hprefix Herr Hfuel. unfold listProjects. rewrite Hconn.
  apply (listProjects_loop_error conn 1 ps q err Hprefix Herr fuel Hfuel).
Qed.

(** X14.  The same for [listAllIssues]. *)
Theorem listAllIssues_upstream_error (env : gmap string string) (d : QueryData)
    (conn : Client) (ps : list (Z * list Issue)) (q : Z) (err : error)
    (fuel : nat) :
  connect env d = inl conn ->
  pagePrefix
    (fun p => ListIssues conn
                (ListIssuesOptions.set_Page p
                   (allIssuesOptions (OptionalKeyColumnQuals d)))) 1 ps q ->
  ListIssues conn
    (ListIssuesOptions.set_Page q (allIssuesOptions (OptionalKeyColumnQuals d)))
  = inr err ->
  (length ps < fuel)%nat ->
  listAllIssues fuel env d
  = {| result := Failed err;
       calls := map (fun pg => ListIssuesReq
                                 (ListIssuesOptions.set_Page (fst pg)
                                    (allIssuesOptions (OptionalKeyColumnQuals d)))) ps
                ++ [ListIssuesReq
                      (ListIssuesOptions.set_Page q
                         (allIssuesOptions (OptionalKeyColumnQuals d)))];
       streamed := concat (map (fun pg => map IssueRow (snd pg)) ps) |}.
Proof.
  intros Hconn Hprefix Herr Hfuel. unfold listAllIssues. rewrite Hconn.
  cbv zeta.
  rewrite <- (set_Page_same (allIssuesOptions (OptionalKeyColumnQuals d))) at 1.
  replace (ListIssuesOptions.Page (allIssuesOptions (OptionalKeyColumnQuals d)))
    with 1 by (symmetry; apply allIssuesOptions_paging).
  apply (listAllIssues_loop_error conn _ 1 ps q err Hprefix Herr fuel Hfuel).
Qed.

End Pagination.

Lemma listProjects_pagination_witness :
  streamed (ProjectTable.listProjects (api := Fixtures.api3) 3
              Fixtures.envSelfHosted Fixtures.noQuals)
  = map ProjectRow ["a"; "b"; "c"; "d"; "e"]%string.
Proof.
  refine (proj2 (proj2 (proj2 (proj2
    (listProjects_pagination (api := Fixtures.api3)
       Fixtures.envSelfHosted Fixtures.noQuals Fixtures.connectedClient
       [(1, ["a"; "b"]); (2, ["c"]); (3, ["d"; "e"])]%string 3 _ _ _))))).
  - vm_compute. reflexivity.
  - eapply chain_next; [reflexivity | discriminate |].
    eapply chain_next; [reflexivity | discriminate |].
    apply chain_last. reflexivity.
  - cbn. lia.
Defined.


Lemma listProjects_upstream_error_witness :
  ProjectTable.listProjects (api := Fixtures.brokenAfterFirstPage) 2
    Fixtures.envSelfHosted Fixtures.noQuals
  = {| result := Failed (LibError "502 Bad Gateway");
       calls := [ListProjectsReq (ListProjectsOptions.mk 1 50);
                 ListProjectsReq (ListProjectsOptions.mk 2 50)];
       streamed := [ProjectRow "a"; ProjectRow "b"]%string |}.
Proof.
  refine (listProjects_upstream_error (api := Fixtures.brokenAfterFirstPage)
            Fixtures.envSelfHosted Fixtures.noQuals Fixtures.connectedClient
            [(1, ["a"; "b"]%string)] 2 (LibError "502 Bad Gateway") 2 _ _ _ _).
  - vm_compute. reflexivity.
  - eapply prefix_page; [reflexivity | discriminate | apply prefix_none].
  - reflexivity.
  - cbn. lia.
Defined.

Lemma listAllIssues_upstream_error_witness :
  result (IssueTable.listAllIssues (api := Fixtures.brokenAfterFirstPage) 2
            Fixtures.envSelfHosted Fixtures.noQuals)
  = Failed (LibError "502 Bad Gateway").
Proof.
  rewrite (listAllIssues_upstream_error (api := Fixtures.brokenAfterFirstPage)
             Fixtures.envSelfHosted Fixtures.noQuals Fixtures.connectedClient
             [(1, [11; 12])] 2 (LibError "502 Bad Gateway") 2).
  - reflexivity.
  - vm_compute. reflexivity.
  - eapply prefix_page; [reflexivity | discriminate | apply prefix_none].
  - reflexivity.
  - cbn. lia.
Defined.

(** ** The per-project path, the transforms and the hydrate functions *)

Section IssueHandlers.

Import Utils ProjectTable IssueTable.
Context {Project Issue : Type} {api : GitlabAPI Project Issue}.

Lemma connect_same_connection env (d d' : QueryData) :
  QConnection d = QConnection d' -> connect env d = connect env d'.
Proof.
  intros Hconn. unfold connect, mergedBaseUrl, mergedToken.
  rewrite Hconn. reflexivity.
Qed.

Lemma listProjectIssues_loop_any_options fuel conn pid opt opt' :
  listProjectIssues_loop fuel conn pid opt = listProjectIssues_loop fuel conn pid opt'.
Proof.
  revert opt opt'. induction fuel as [| fuel IH]; intros opt opt'; [reflexivity |].
  cbn [listProjectIssues_loop].
  destruct (ListProjectIssues conn pid ListProjectIssuesOptions.empty)
    as [[issues resp] | err]; [| reflexivity].
  destruct (NextPage resp =? 0); [reflexivity |].
  rewrite (IH _ (ListProjectIssuesOptions.set_Page (NextPage resp) opt')).
  reflexivity.
Qed.

(** X15.  On the per-project path no qualifier but [project_id] has any
    effect: two queries over the same connection that agree on [project_id]
    lead to the same upstream calls, the same rows and the same result, so
    an [assignee], [author_id], [confidential] or [search_string] filter
    narrows nothing there. *)
Theorem listProjectIssues_ignores_other_quals (fuel : nat)
    (env : gmap string string) (d d' : QueryData) :
  QConnection d = QConnection d' ->
  OptionalKeyColumnQuals d !! "project_id"
    = OptionalKeyColumnQuals d' !! "project_id" ->
  listProjectIssues fuel env d = listProjectIssues fuel env d'.
Proof.
  intros Hconn Hpid. unfold listProjectIssues.
  rewrite (connect_same_connection env d d' Hconn), Hpid.
  destruct (connect env d') as [conn | err]; [| reflexivity].
  destruct (OptionalKeyColumnQuals d' !! "project_id") as [v |]; [| reflexivity].
  apply listProjectIssues_loop_any_options.
Qed.

(** X16.  What [listProjectIssues] does is decided by the answer to the one
    request it can send, the per-project list call for the id of the
    [project_id] qualifier with no options.  An error is returned after that
    one call; an answer without next page is streamed and the handler
    returns after that one call; an answer that names a next page is
    requested and streamed again with every iteration, and the handler does
    not return. *)
Theorem listProjectIssues_outcomes (fuel : nat) (env : gmap string string)
    (d : QueryData) (conn : Client) (v : QualValue) :
  connect env d = inl conn ->
  OptionalKeyColumnQuals d !! "project_id" = Some v ->
  let req := ListProjectIssuesReq (GetInt64Value v) ListProjectIssuesOptions.empty in
  match ListProjectIssues conn (GetInt64Value v) ListProjectIssuesOptions.empty with
  | inr err =>
      listProjectIssues (S fuel) env d
      = {| result := Failed err; calls := [req]; streamed := [] |}
  | inl (issues, resp) =>
      if NextPage resp =? 0
      then listProjectIssues (S fuel) env d
           = {| result := Done; calls := [req]; streamed := map IssueRow issues |}
      else forall n,
             listProjectIssues n env d
             = {| result := OutOfFuel;
                  calls := repeat req n;
                  streamed := concat (repeat (map IssueRow issues) n) |}
  end.
Proof.
  intros Hconn Hpid req.
  destruct (ListProjectIssues conn (GetInt64Value v) ListProjectIssuesOptions.empty)
    as [[issues resp] | err] eqn:Hfetch.
  - destruct (Z.eqb_spec (NextPage resp) 0) as [Hzero | Hnext].
    + unfold listProjectIssues. rewrite Hconn, Hpid.
      apply (listProjectIssues_loop_single conn _ issues resp fuel _ Hfetch Hzero).
    + intros n. unfold listProjectIssues. rewrite Hconn, Hpid.
      apply (listProjectIssues_loop_stuck conn _ issues resp Hfetch Hnext).
  - unfold listProjectIssues. rewrite Hconn, Hpid.
    cbn [listProjectIssues_loop]. rewrite Hfetch. reflexivity.
Qed.

(** X17.  [searchStringFromQuals] returns the string of the [search_string]
    qualifier, the empty string when there is none, and no error.  On the
    instance-wide path that string is the search filter of every upstream
    call (no filter when it is echoed as empty for want of a qualifier); on
    the per-project path no upstream call carries a search filter, whatever
    is echoed. *)
Theorem searchStringFromQuals_echo (fuel : nat) (env : gmap string string)
    (d : QueryData) :
  (forall v, OptionalKeyColumnQuals d !! "search_string" = Some v ->
     searchStringFromQuals d = inl (GetStringValue v) /\
     Forall (fun r => exists opt,
               r = ListIssuesReq opt /\
               ListIssuesOptions.Search opt = Some (GetStringValue v))
            (calls (listAllIssues fuel env d))) /\
  (OptionalKeyColumnQuals d !! "search_string" = None ->
     searchStringFromQuals d = inl EmptyString /\
     Forall (fun r => exists opt,
               r = ListIssuesReq opt /\ ListIssuesOptions.Search opt = None)
            (calls (listAllIssues fuel env d))) /\
  Forall (fun r => exists pid opt,
            r = ListProjectIssuesReq pid opt /\
            ListProjectIssuesOptions.Search opt = None)
         (calls (listProjectIssues fuel env d)).
Proof.
  assert (forall search,
            ListIssuesOptions.Search (allIssuesOptions (OptionalKeyColumnQuals d))
              = search ->
            Forall (fun r => exists opt,
                      r = ListIssuesReq opt /\ ListIssuesOptions.Search opt = search)
                   (calls (listAllIssues fuel env d))) as Hall.
  { intros search Hsearch. unfold listAllIssues.
    destruct (connect env d) as [conn | err]; [| constructor].
    cbv zeta.
    rewrite <- (set_Page_same (allIssuesOptions (OptionalKeyColumnQuals d))) at 1.
    eapply Forall_impl; [apply listAllIssues_loop_options |].
    cbn beta. intros r [p ->]. eexists. split; [reflexivity |].
    cbn [ListIssuesOptions.set_Page ListIssuesOptions.Search]. exact Hsearch. }
  split_and!.
  - intros v Hv. split.
    + unfold searchStringFromQuals. rewrite Hv. reflexivity.
    + apply Hall. unfold allIssuesOptions, addOptionalIssueQuals. rewrite Hv.
      destruct (_ !! "assignee"), (_ !! "assignee_id"), (_ !! "author_id"),
               (_ !! "confidential"); reflexivity.
  - intros Hnone. split.
    + unfold searchStringFromQuals. rewrite Hnone. reflexivity.
    + apply Hall. unfold allIssuesOptions, addOptionalIssueQuals. rewrite Hnone.
      destruct (_ !! "assignee"), (_ !! "assignee_id"), (_ !! "author_id"),
               (_ !! "confidential"); reflexivity.
  - unfold listProjectIssues.
    destruct (connect env d) as [conn | err]; [| constructor].
    destruct (OptionalKeyColumnQuals d !! "project_id") as [v |]; [| constructor].
    eapply Forall_impl; [apply listProjectIssues_loop_calls |].
    cbn beta. intros r ->. do 2 eexists. split; reflexivity.
Qed.

(** X18.  [listIssues] reads the qualifier map only at columns the table
    declares as optional key columns: two queries over the same connection
    whose qualifiers agree on those columns lead to the same upstream calls,
    rows and result. *)
Theorem listIssues_reads_declared_quals (fuel : nat) (env : gmap string string)
    (d d' : QueryData) :
  QConnection d = QConnection d' ->
  (forall key, key ∈ OptionalKeyColumns ->
     OptionalKeyColumnQuals d !! key = OptionalKeyColumnQuals d' !! key) ->
  listIssues fuel env d = listIssues fuel env d'.
Proof.
  intros Hconn Hquals.
  assert (OptionalKeyColumnQuals d !! "assignee"
          = OptionalKeyColumnQuals d' !! "assignee") as Ha
    by (apply Hquals; unfold OptionalKeyColumns; set_solver).
  assert (OptionalKeyColumnQuals d !! "assignee_id"
          = OptionalKeyColumnQuals d' !! "assignee_id") as Hai
    by (apply Hquals; unfold OptionalKeyColumns; set_solver).
  assert (OptionalKeyColumnQuals d !! "author_id"
          = OptionalKeyColumnQuals d' !! "author_id") as Hau
    by (apply Hquals; unfold OptionalKeyColumns; set_solver).
  assert (OptionalKeyColumnQuals d !! "confidential"
          = OptionalKeyColumnQuals d' !! "confidential") as Hc
    by (apply Hquals; unfold OptionalKeyColumns; set_solver).
  assert (OptionalKeyColumnQuals d !! "search_string"
          = OptionalKeyColumnQuals d' !! "search_string") as Hs
    by (apply Hquals; unfold OptionalKeyColumns; set_solver).
  assert (OptionalKeyColumnQuals d !! "project_id"
          = OptionalKeyColumnQuals d' !! "project_id") as Hp
    by (apply Hquals; unfold OptionalKeyColumns; set_solver).
  unfold listIssues, cloudGuard, isGitlabCloud.
  rewrite Ha, Hai, Hau, Hp, Hconn.
  match goal with |- (if ?guard then _ else _) = _ => destruct guard end;
    [reflexivity |].
  destruct (OptionalKeyColumnQuals d' !! "project_id") as [v |] eqn:Hv.
  - unfold listProjectIssues.
    rewrite (connect_same_connection env d d' Hconn), Hp, Hv.
    destruct (connect env d') as [conn | err]; [| reflexivity].
    apply listProjectIssues_loop_any_options.
  - unfold listAllIssues, allIssuesOptions, addOptionalIssueQuals.
    rewrite (connect_same_connection env d d' Hconn), Ha, Hai, Hau, Hc, Hs.
    reflexivity.
Qed.

End IssueHandlers.

Lemma listProjectIssues_ignores_other_quals_witness :
  IssueTable.listProjectIssues (api := Fixtures.api3) 3
    Fixtures.envSelfHosted Fixtures.project7
  = IssueTable.listProjectIssues (api := Fixtures.api3) 3
      Fixtures.envSelfHosted Fixtures.project7Alice.
Proof.
  apply (listProjectIssues_ignores_other_quals (api := Fixtures.api3));
    vm_compute; reflexivity.
Defined.

Lemma listProjectIssues_outcomes_witness :
  IssueTable.listProjectIssues (api := Fixtures.forbiddenProjectIssues) 1
    Fixtures.envSelfHosted Fixtures.project7
  = {| result := Failed (LibError "403 Forbidden");
       calls := [ListProjectIssuesReq 7 ListProjectIssuesOptions.empty];
       streamed := [] |}.
Proof.
  assert (Utils.connect (api := Fixtures.forbiddenProjectIssues)
            Fixtures.envSelfHosted Fixtures.project7
          = inl Fixtures.connectedClient) as Hconn by (vm_compute; reflexivity).
  assert (OptionalKeyColumnQuals Fixtures.project7 !! "project_id"
          = Some (Int64Value 7)) as Hpid by (vm_compute; reflexivity).
  exact (listProjectIssues_outcomes (api := Fixtures.forbiddenProjectIssues) 0
           Fixtures.envSelfHosted Fixtures.project7 Fixtures.connectedClient
           (Int64Value 7) Hconn Hpid).
Defined.

Lemma listIssues_reads_declared_quals_witness :
  IssueTable.listIssues (api := Fixtures.api3) 3
    Fixtures.envSelfHosted Fixtures.aliceCrash
  = IssueTable.listIssues (api := Fixtures.api3) 3
      Fixtures.envSelfHosted
      (Fixtures.query Fixtures.noConfig
         (<["title" := StringValue "Crash on start"]>
            (OptionalKeyColumnQuals Fixtures.aliceCrash))).
Proof.
  apply (listIssues_reads_declared_quals (api := Fixtures.api3)).
  - reflexivity.
  - intros key Hkey. unfold IssueTable.OptionalKeyColumns in Hkey.
    repeat (apply elem_of_cons in Hkey as [-> | Hkey]; [vm_compute; reflexivity |]).
    apply elem_of_nil in Hkey. contradiction.
Defined.

(** ** The transforms and the translators *)

(** X19.  On a list of assignees none of which is a [nil] pointer,
    [parseAssignees] returns, without error, the list of their usernames,
    one per assignee and in the order of the input, and the [nil] slice when
    the list has no element; on a list that holds a [nil] pointer it
    panics. *)
Theorem parseAssignees_usernames_in_order
    (assignees : slice (option IssueAssignee)) :
  (forall values : list IssueAssignee,
     slice_elems assignees = map Some values ->
     IssueTable.parseAssignees (Some assignees)
     = Returns (inl (Some match values with
                          | [] => None
                          | _ :: _ => Some (map Username values)
                          end))) /\
  (None ∈ slice_elems assignees ->
     IssueTable.parseAssignees (Some assignees) = Panics nilDereference).
Proof.
  unfold IssueTable.parseAssignees. split.
  - intros values ->. rewrite parseAssignees_loop_values.
    destruct values; reflexivity.
  - intros Hnil. rewrite (parseAssignees_loop_nil_element _ _ Hnil). reflexivity.
Qed.

Lemma parseAssignees_usernames_in_order_witness :
  IssueTable.parseAssignees (Some (Some [Some Fixtures.alice; Some Fixtures.bob]))
  = Returns (inl (Some (Some ["alice"; "bob"]%string))).
Proof.
  apply (proj1 (parseAssignees_usernames_in_order
                  (Some [Some Fixtures.alice; Some Fixtures.bob]))
           [Fixtures.alice; Fixtures.bob]).
  reflexivity.
Defined.

(** X20.  Whenever [isoTimeTransform] returns a timestamp, that timestamp is
    a calendar date at midnight UTC which the transform maps to itself; on
    an input other than [nil] it returns a timestamp or an error, never
    [nil]. *)
Theorem isoTimeTransform_output_fixed (t : ISOTime) :
  Utils.isoTimeTransform (Some t) <> inl None /\
  (forall t' : GoTime.Time,
     Utils.isoTimeTransform (Some t) = inl (Some t') ->
     GoTime.validDate (GoTime.year t') (GoTime.month t') (GoTime.day t') /\
     GoTime.hour t' = 0 /\ GoTime.minute t' = 0 /\
     GoTime.second t' = 0 /\ GoTime.nanosecond t' = 0 /\
     Utils.isoTimeTransform (Some t') = inl (Some t')).
Proof.
  unfold Utils.isoTimeTransform, ISOTime_String. split.
  - destruct (GoTime.Parse_iso8601 _); discriminate.
  - intros t'.
    destruct (GoTime.Parse_iso8601 (GoTime.Format_iso8601 t)) as [tm |] eqn:Hparse;
      [| discriminate].
    intros [= ->].
    destruct (Parse_valid _ _ Hparse) as [Hvalid Hmid].
    rewrite (Parse_Format t' Hvalid), <- Hmid.
    split; [exact Hvalid |]. rewrite Hmid. repeat split.
Qed.

(** X21.  [addOptionalProjectIssueQuals] translates the qualifiers as its
    sibling for the instance-wide list does: the five filters are set from
    [assignee], [assignee_id], [author_id], [confidential] and
    [search_string] when present and kept otherwise, page, page size and
    scope are kept, and [author] and [project_id] qualifiers change
    nothing. *)
Theorem addOptionalProjectIssueQuals_fields
    (opts : ListProjectIssuesOptions.t) (q : gmap string QualValue) :
  let r := IssueTable.addOptionalProjectIssueQuals opts q in
  ListProjectIssuesOptions.AssigneeUsername r
    = match q !! "assignee" with
      | Some v => Some (GetStringValue v)
      | None => ListProjectIssuesOptions.AssigneeUsername opts
      end /\
  ListProjectIssuesOptions.AssigneeID r
    = match q !! "assignee_id" with
      | Some v => Some (GetInt64Value v)
      | None => ListProjectIssuesOptions.AssigneeID opts
      end /\
  ListProjectIssuesOptions.AuthorID r
    = match q !! "author_id" with
      | Some v => Some (GetInt64Value v)
      | None => ListProjectIssuesOptions.AuthorID opts
      end /\
  ListProjectIssuesOptions.Confidential r
    = match q !! "confidential" with
      | Some v => Some (GetBoolValue v)
      | None => ListProjectIssuesOptions.Confidential opts
      end /\
  ListProjectIssuesOptions.Search r
    = match q !! "search_string" with
      | Some v => Some (GetStringValue v)
      | None => ListProjectIssuesOptions.Search opts
      end /\
  ListProjectIssuesOptions.Page r = ListProjectIssuesOptions.Page opts /\
  ListProjectIssuesOptions.PerPage r = ListProjectIssuesOptions.PerPage opts /\
  ListProjectIssuesOptions.Scope r = ListProjectIssuesOptions.Scope opts /\
  (forall v : QualValue,
     IssueTable.addOptionalProjectIssueQuals opts (<["author" := v]> q) = r) /\
  (forall v : QualValue,
     IssueTable.addOptionalProjectIssueQuals opts (<["project_id" := v]> q) = r).
Proof.
  cbv zeta. split_and!;
    try (unfold IssueTable.addOptionalProjectIssueQuals;
         destruct (q !! "assignee"), (q !! "assignee_id"), (q !! "author_id"),
                  (q !! "confidential"), (q !! "search_string"); reflexivity).
  - intros v. unfold IssueTable.addOptionalProjectIssueQuals.
    rewrite !lookup_insert_ne by done. reflexivity.
  - intros v. unfold IssueTable.addOptionalProjectIssueQuals.
    rewrite !lookup_insert_ne by done. reflexivity.
Qed.

(** X22.  [addOptionalIssueQuals] reads the qualifier map at five keys only,
    so two maps that agree on [assignee], [assignee_id], [author_id],
    [confidential] and [search_string] are translated alike; and translating
    the same qualifiers a second time changes nothing. *)
Theorem addOptionalIssueQuals_reads_five
    (opts : ListIssuesOptions.t) (q q' : gmap string QualValue) :
  (forall key,
     key ∈ ["assignee"; "assignee_id"; "author_id"; "confidential";
            "search_string"]%string ->
     q !! key = q' !! key) ->
  IssueTable.addOptionalIssueQuals opts q = IssueTable.addOptionalIssueQuals opts q' /\
  IssueTable.addOptionalIssueQuals (IssueTable.addOptionalIssueQuals opts q) q'
  = IssueTable.addOptionalIssueQuals opts q.
Proof.
  intros Hkeys.
  assert (q !! "assignee" = q' !! "assignee") as Ha by (apply Hkeys; set_solver).
  assert (q !! "assignee_id" = q' !! "assignee_id") as Hai by (apply Hkeys; set_solver).
  assert (q !! "author_id" = q' !! "author_id") as Hau by (apply Hkeys; set_solver).
  assert (q !! "confidential" = q' !! "confidential") as Hc by (apply Hkeys; set_solver).
  assert (q !! "search_string" = q' !! "search_string") as Hs by (apply Hkeys; set_solver).
  unfold IssueTable.addOptionalIssueQuals. rewrite Ha, Hai, Hau, Hc, Hs. split.
  - reflexivity.
  - destruct (q' !! "assignee"), (q' !! "assignee_id"), (q' !! "author_id"),
             (q' !! "confidential"), (q' !! "search_string"), opts; reflexivity.
Qed.

Lemma addOptionalIssueQuals_reads_five_witness :
  IssueTable.addOptionalIssueQuals ListIssuesOptions.empty
    (OptionalKeyColumnQuals Fixtures.aliceCrash)
  = IssueTable.addOptionalIssueQuals ListIssuesOptions.empty
      (<["project_id" := Int64Value 7]> (OptionalKeyColumnQuals Fixtures.aliceCrash)).
Proof.
  refine (proj1 (addOptionalIssueQuals_reads_five ListIssuesOptions.empty _ _ _)).
  intros key Hkey.
  repeat (apply elem_of_cons in Hkey as [-> | Hkey]; [vm_compute; reflexivity |]).
  apply elem_of_nil in Hkey. contradiction.
Defined.

Lemma isoTimeTransform_output_fixed_witness :
  Utils.isoTimeTransform (Some (GoTime.midnightUTC 2021 3 9))
  = inl (Some (GoTime.midnightUTC 2021 3 9)).
Proof.
  refine (proj2 (proj2 (proj2 (proj2 (proj2
    (proj2 (isoTimeTransform_output_fixed
              {| GoTime.year := 2021; GoTime.month := 3; GoTime.day := 9;
                 GoTime.hour := 13; GoTime.minute := 45; GoTime.second := 10;
                 GoTime.nanosecond := 0 |})
       (GoTime.midnightUTC 2021 3 9) _)))))).
  vm_compute. reflexivity.
Defined.

(** ** [getProject] *)

Section GetProject.

Import Utils ProjectTable.
Context {Project Issue : Type} {api : GitlabAPI Project Issue}
        {projects : ProjectsGet Project}.

(** X23.  [getProject] issues no upstream call when the connection cannot be
    resolved and returns the error of [connect]; otherwise it issues exactly
    one lookup, without options, for the integer of the [id] qualifier, for
    project 0 when that qualifier is missing or holds no integer, and
    returns what the lookup returns, the project or the upstream error
    unchanged. *)
Theorem getProject_one_lookup (env : gmap string string) (d : GetQueryData) :
  (forall err, connect env (GetQuery d) = inr err ->
     getProject env d = {| get_calls := []; get_result := inr err |}) /\
  (forall conn, connect env (GetQuery d) = inl conn ->
     exists id,
       get_calls (getProject env d)
         = [(id, {| License := None; Statistics := None;
                    WithCustomAttributes := None |})] /\
       get_result (getProject env d)
         = GetProject conn id {| License := None; Statistics := None;
                                 WithCustomAttributes := None |} /\
       (forall i, KeyColumnQuals d !! "id" = Some (Int64Value i) -> id = i) /\
       ((forall i, KeyColumnQuals d !! "id" <> Some (Int64Value i)) -> id = 0)).
Proof.
  split.
  - intros err Hconn. unfold getProject. rewrite Hconn. reflexivity.
  - intros conn Hconn. unfold getProject. rewrite Hconn.
    exists (ptr_GetInt64Value (KeyColumnQuals d !! "id")).
    cbn [get_calls get_result]. split_and!.
    + reflexivity.
    + destruct (GetProject conn _ _); reflexivity.
    + intros i ->. reflexivity.
    + intros Hno. destruct (KeyColumnQuals d !! "id") as [[s | i | b |] |];
        try reflexivity.
      exfalso. apply (Hno i). reflexivity.
Qed.

End GetProject.

Lemma getProject_one_lookup_witness :
  ProjectTable.getProject (api := Fixtures.api1) (projects := Fixtures.projectSeven)
    Fixtures.envNoToken
    {| ProjectTable.GetQuery := Fixtures.noQuals;
       ProjectTable.KeyColumnQuals := {["id" := Int64Value 7]} |}
  = {| ProjectTable.get_calls := [];
       ProjectTable.get_result := inr (Errorf Utils.err_no_token) |}.
Proof.
  apply (proj1 (getProject_one_lookup (api := Fixtures.api1)
                  (projects := Fixtures.projectSeven) Fixtures.envNoToken _)).
  vm_compute. reflexivity.
Defined.

Lemma getProject_seven :
  ProjectTable.get_result
    (ProjectTable.getProject (api := Fixtures.api1) (projects := Fixtures.projectSeven)
       Fixtures.envSelfHosted
       {| ProjectTable.GetQuery := Fixtures.noQuals;
          ProjectTable.KeyColumnQuals := {["id" := Int64Value 7]} |})
  = inl "seven"%string.
Proof. vm_compute. reflexivity. Qed.

Lemma searchStringFromQuals_echo_witness :
  IssueTable.searchStringFromQuals Fixtures.aliceCrash = inl "crash"%string.
Proof.
  apply (proj1 (searchStringFromQuals_echo (api := Fixtures.api3) 3
                  Fixtures.envSelfHosted Fixtures.aliceCrash)
           (StringValue "crash")).
  vm_compute. reflexivity.
Defined.

Lemma searchStringFromQuals_project7 :
  IssueTable.searchStringFromQuals Fixtures.project7 = inl EmptyString.
Proof. vm_compute. reflexivity. Qed.
